(** * html_xblock: the HTML5 XBlock and its read-time sanitization gate

    A shallow embedding of [html_xblock/html_xblock.py]: the block's
    persisted fields, the [update_content] JSON handler, the [html] and
    [sanitized_html] properties and the translation-bundle lookup
    [_get_statici18n_js_url].  The sanitizer itself lives in the
    [bleaching] module of the package; it is modelled here from its
    written contract as a tokenizer, a token filter and a printer. *)

From Stdlib Require Import Ascii String List Bool Arith Lia.
From stdpp Require Import base option list strings gmap.
Import ListNotations.

Local Open Scope string_scope.
Local Open Scope list_scope.
Local Open Scope nat_scope.

(* ===================================================================== *)
(** ** Characters *)
(* ===================================================================== *)

Definition code (c : ascii) : nat := nat_of_ascii c.

Definition is_space (c : ascii) : bool :=
  (code c =? 32) || (code c =? 9) || (code c =? 10) || (code c =? 12) || (code c =? 13).

Definition is_upper (c : ascii) : bool := (65 <=? code c) && (code c <=? 90).
Definition is_lower (c : ascii) : bool := (97 <=? code c) && (code c <=? 122).
Definition is_digit (c : ascii) : bool := (48 <=? code c) && (code c <=? 57).

(** ASCII lower-casing, as markup names are case-insensitive. *)
Definition lower (c : ascii) : ascii :=
  if is_upper c then ascii_of_nat (code c + 32) else c.

(** The characters of a normalised (lower-case) tag or attribute name. *)
Definition is_name_char (c : ascii) : bool :=
  is_lower c || is_digit c || (code c =? 45) || (code c =? 95).

Definition is_lt (c : ascii) : bool := code c =? 60.
Definition is_gt (c : ascii) : bool := code c =? 62.
Definition is_slash (c : ascii) : bool := code c =? 47.
Definition is_eq (c : ascii) : bool := code c =? 61.
Definition is_quote (c : ascii) : bool := code c =? 34.
Definition is_amp (c : ascii) : bool := code c =? 38.
Definition is_colon (c : ascii) : bool := code c =? 58.

(** The double quote that delimits attribute values. *)
Definition quote_char : ascii := ascii_of_nat 34.

(* ===================================================================== *)
(** ** The sanitizer of [bleaching.SanitizedText] *)
(* ===================================================================== *)

(** Modelled from the spec: the allow-list policy of the sanitizer
    ([SanitizationPolicy]: tag names, and attribute names per tag), which
    the [bleaching] module configures and which is not part of this
    file's source. *)
Record SanitizationPolicy := {
  allowed_tags : list string;
  allowed_attributes : list (string * list string)
}.

(** A tag or attribute name, and an attribute with its (raw) value.  A
    bare attribute such as [disabled] has the empty value. *)
Definition name := list ascii.
Definition attribute := (name * list ascii)%type.

(** Markup is a flat stream: text characters, start tags and end tags.
    Nothing requires the tags to be balanced. *)
Inductive token :=
| Chr (c : ascii)
| Open (n : name) (attrs : list attribute)
| Close (n : name).

(** States of the tokenizer. *)
Inductive lex_state :=
| Text                                  (* outside any tag *)
| TagStart                              (* after "<" *)
| EndStart                              (* after "</" *)
| EndName (n : name)                    (* in the name of an end tag *)
| EndRest (n : name)                    (* after that name, before ">" *)
| TagName (n : name)                    (* in the name of a start tag *)
| BeforeAttr (n : name) (attrs : list attribute)
| SelfClose (n : name) (attrs : list attribute)   (* after "/" *)
| AttrName (n : name) (attrs : list attribute) (a : name)
| AttrEq (n : name) (attrs : list attribute) (a : name)  (* after "=" *)
| AttrValue (n : name) (attrs : list attribute) (a : name) (v : list ascii).

(** One character of input: the next state and the token completed by
    this character, if any; [None] when the character cannot continue
    the markup. *)
Definition lex_step (st : lex_state) (c : ascii) : option (lex_state * option token) :=
  match st with
  | Text =>
      if is_lt c then Some (TagStart, None) else Some (Text, Some (Chr c))
  | TagStart =>
      if is_slash c then Some (EndStart, None)
      else if is_name_char (lower c) then Some (TagName [lower c], None)
      else None
  | EndStart =>
      if is_name_char (lower c) then Some (EndName [lower c], None) else None
  | EndName n =>
      if is_name_char (lower c) then Some (EndName (n ++ [lower c]), None)
      else if is_space c then Some (EndRest n, None)
      else if is_gt c then Some (Text, Some (Close n))
      else None
  | EndRest n =>
      if is_space c then Some (EndRest n, None)
      else if is_gt c then Some (Text, Some (Close n))
      else None
  | TagName n =>
      if is_name_char (lower c) then Some (TagName (n ++ [lower c]), None)
      else if is_space c then Some (BeforeAttr n [], None)
      else if is_slash c then Some (SelfClose n [], None)
      else if is_gt c then Some (Text, Some (Open n []))
      else None
  | BeforeAttr n attrs =>
      if is_space c then Some (BeforeAttr n attrs, None)
      else if is_slash c then Some (SelfClose n attrs, None)
      else if is_gt c then Some (Text, Some (Open n attrs))
      else if is_name_char (lower c) then Some (AttrName n attrs [lower c], None)
      else None
  | SelfClose n attrs =>
      if is_gt c then Some (Text, Some (Open n attrs)) else None
  | AttrName n attrs a =>
      if is_name_char (lower c) then Some (AttrName n attrs (a ++ [lower c]), None)
      else if is_eq c then Some (AttrEq n attrs a, None)
      else if is_space c then Some (BeforeAttr n (attrs ++ [(a, [])]), None)
      else if is_slash c then Some (SelfClose n (attrs ++ [(a, [])]), None)
      else if is_gt c then Some (Text, Some (Open n (attrs ++ [(a, [])])))
      else None
  | AttrEq n attrs a =>
      if is_quote c then Some (AttrValue n attrs a [], None) else None
  | AttrValue n attrs a v =>
      if is_quote c then Some (BeforeAttr n (attrs ++ [(a, v)]), None)
      else Some (AttrValue n attrs a (v ++ [c]), None)
  end.

(** Run the tokenizer from a state; the input must end outside a tag. *)
Fixpoint lex (st : lex_state) (s : list ascii) : option (list token) :=
  match s with
  | [] => match st with Text => Some [] | _ => None end
  | c :: s' =>
      match lex_step st c with
      | Some (st', Some t) => cons t <$> lex st' s'
      | Some (st', None) => lex st' s'
      | None => None
      end
  end.

Definition tokenize (s : list ascii) : option (list token) := lex Text s.

(** Modelled from the spec: the printer of the sanitizer's output.  Names
    are printed as normalised, every attribute as [name="value"]. *)
Definition render_attr (a : attribute) : list ascii :=
  " "%char :: fst a ++ "="%char :: quote_char :: snd a ++ [quote_char].

Definition render_attrs (attrs : list attribute) : list ascii :=
  concat (map render_attr attrs).

Definition render_token (t : token) : list ascii :=
  match t with
  | Chr c => [c]
  | Open n attrs => "<"%char :: n ++ render_attrs attrs ++ [">"%char]
  | Close n => "<"%char :: "/"%char :: n ++ [">"%char]
  end.

Definition render (ts : list token) : list ascii :=
  concat (map render_token ts).

(** Comparison of a normalised name with a literal. *)
Definition name_is (n : name) (s : string) : bool :=
  String.eqb (string_of_list_ascii n) s.

Definition name_in (n : name) (l : list string) : bool :=
  existsb (name_is n) l.

Definition is_script (n : name) : bool := name_is n "script".

(** An event-handler attribute: its name begins with [on]. *)
Definition is_event_handler (a : name) : bool :=
  match a with
  | c1 :: c2 :: _ => (code c1 =? 111) && (code c2 =? 110)
  | _ => false
  end.

(** The attributes that carry a URL. *)
Definition is_url_attr (a : name) : bool := name_is a "href" || name_is a "src".

(** The scheme of a URL: the characters before its first colon, when no
    [/], [?] or [#] comes earlier; a URL without one is a relative path. *)
Fixpoint scheme_of (v : list ascii) : option (list ascii) :=
  match v with
  | [] => None
  | c :: v' =>
      if is_colon c then Some []
      else if is_slash c || (code c =? 63) || (code c =? 35) then None
      else cons c <$> scheme_of v'
  end.

Definition safe_schemes : list string := ["http"; "https"; "mailto"].

Definition safe_url (v : list ascii) : bool :=
  match scheme_of v with
  | None => true
  | Some s => name_in (map lower s) safe_schemes
  end.

Definition tag_allowed (pol : SanitizationPolicy) (n : name) : bool :=
  name_in n (allowed_tags pol).

Definition attr_allowed (pol : SanitizationPolicy) (n a : name) : bool :=
  existsb (fun e => name_is n (fst e) && name_in a (snd e)) (allowed_attributes pol).

(** Modelled from the spec: which attributes a retained element keeps:
    those on the allow-list of its tag, never an event handler, and a URL
    attribute only with a safe scheme. *)
Definition keep_attr (pol : SanitizationPolicy) (n : name) (a : attribute) : bool :=
  attr_allowed pol n (fst a)
  && negb (is_event_handler (fst a))
  && (if is_url_attr (fst a) then safe_url (snd a) else true).

(** Modelled from the spec: the filter over the token stream.  [in_script]
    says that a script element is open: everything up to and including its
    end tag (or the end of the input) is dropped.  Outside, text is kept,
    the tags on the allow-list are kept with their permitted attributes,
    and any other tag is removed. *)
Fixpoint clean (pol : SanitizationPolicy) (in_script : bool) (ts : list token)
  : list token :=
  match ts with
  | [] => []
  | t :: ts' =>
      if in_script then
        match t with
        | Close n => clean pol (negb (is_script n)) ts'
        | _ => clean pol true ts'
        end
      else
        match t with
        | Chr c => Chr c :: clean pol false ts'
        | Open n attrs =>
            if is_script n then clean pol true ts'
            else if tag_allowed pol n
                 then Open n (List.filter (keep_attr pol n) attrs) :: clean pol false ts'
                 else clean pol false ts'
        | Close n =>
            if is_script n then clean pol false ts'
            else if tag_allowed pol n then Close n :: clean pol false ts'
            else clean pol false ts'
        end
  end.

(** Modelled from the spec: the escape-as-text fallback. *)
Definition escape_char (c : ascii) : list ascii :=
  if is_lt c then list_ascii_of_string "&lt;"
  else if is_gt c then list_ascii_of_string "&gt;"
  else if is_amp c then list_ascii_of_string "&amp;"
  else if is_quote c then list_ascii_of_string "&quot;"
  else [c].

Definition escape (s : list ascii) : list ascii := concat (map escape_char s).

(** Modelled from the spec: [sanitize], on character lists and on strings:
    tokenize, filter and print; input that does not tokenize is emitted as
    escaped text. *)
Definition sanitize_chars (pol : SanitizationPolicy) (s : list ascii) : list ascii :=
  match tokenize s with
  | Some ts => render (clean pol false ts)
  | None => escape s
  end.

Definition sanitize (pol : SanitizationPolicy) (x : string) : string :=
  string_of_list_ascii (sanitize_chars pol (list_ascii_of_string x)).

(** The tokens of a string, [None] when it is not markup. *)
Definition tokens_of (x : string) : option (list token) :=
  tokenize (list_ascii_of_string x).

(** A policy for the markup the contract names: paragraphs, emphasis,
    links, images, lists and tables. *)
Definition default_policy : SanitizationPolicy := {|
  allowed_tags :=
    ["p"; "br"; "b"; "i"; "em"; "strong"; "a"; "img"; "ul"; "ol"; "li";
     "table"; "thead"; "tbody"; "tr"; "th"; "td"; "h1"; "h2"; "h3"; "pre";
     "code"; "span"; "div"];
  allowed_attributes :=
    [("a", ["href"; "title"; "target"]);
     ("img", ["src"; "alt"; "title"; "width"; "height"]);
     ("td", ["colspan"; "rowspan"]);
     ("th", ["colspan"; "rowspan"])]
|}.

(** Modelled from the spec: [bleaching.SanitizedText], the object that
    [sanitized_html] builds from the stored body and whose [value] it
    returns; the class is not part of this file's source. *)
Record SanitizedText := { value : string }.

Definition SanitizedText_init (pol : SanitizationPolicy) (v : string) : SanitizedText :=
  {| value := sanitize pol v |}.

(* ===================================================================== *)
(** ** The block: fields, properties and the JSON handler *)
(* ===================================================================== *)

(** The persisted fields of [HTML5XBlock]. *)
Record HTML5XBlock := {
  display_name : string;
  data : string;
  allow_javascript : bool;
  editor : string
}.

(** A block as the runtime creates it, every field at its default. *)
Definition new_block : HTML5XBlock :=
  {| display_name := "Text"; data := ""; allow_javascript := false; editor := "visual" |}.

Definition set_data (v : string) (self : HTML5XBlock) : HTML5XBlock :=
  {| display_name := display_name self; data := v;
     allow_javascript := allow_javascript self; editor := editor self |}.

Definition set_allow_javascript (b : bool) (self : HTML5XBlock) : HTML5XBlock :=
  {| display_name := display_name self; data := data self;
     allow_javascript := b; editor := editor self |}.

(** The exceptions the modelled code can raise. *)
Inductive exn :=
| KeyError (key : string)
| IndexError.

(** A computation that returns or raises. *)
Definition result (A : Type) : Type := exn + A.

Definition ret {A} (a : A) : result A := inr a.
Definition raise {A} (e : exn) : result A := inl e.
Definition bind {A B} (m : result A) (k : A → result B) : result B :=
  match m with
  | inl e => inl e
  | inr a => k a
  end.

Notation "'let*' x ':=' m 'in' k" := (bind m (fun x => k))
  (at level 10, x name, m at level 100, k at level 200, only parsing).

(** [d[key]] on a dictionary. *)
Definition getitem (d : gmap string string) (key : string) : result string :=
  match d !! key with
  | Some v => ret v
  | None => raise (KeyError key)
  end.

(** [update_content(self, data, suffix)]: the decoded JSON payload is a
    dictionary; the handler returns the response dictionary and the block
    after the call. *)
Definition update_content (self : HTML5XBlock) (payload : gmap string string)
  : result (gmap string string * HTML5XBlock) :=
  let* v := getitem payload "content" in
  let self' := set_data v self in
  ret ({[ "content" := data self' ]}, self').

(** The [sanitized_html] property. *)
Definition sanitized_html (pol : SanitizationPolicy) (self : HTML5XBlock) : string :=
  let html := SanitizedText_init pol (data self) in
  value html.

(** The [html] property. *)
Definition html (pol : SanitizationPolicy) (self : HTML5XBlock) : string :=
  if allow_javascript self then data self
  else sanitized_html pol self.

(** What reaches a block during its life: a read of [html] by a view, an
    edit of the flag by the settings form, a call of the handler. *)
Inductive request :=
| ReadHtml
| SetAllowJavascript (b : bool)
| UpdateContent (payload : gmap string string).

Inductive response :=
| Rendered (s : string)
| Saved
| Json (m : gmap string string)
| Failed (e : exn).

(** One request: the response and the block afterwards.  A handler that
    raises leaves the block as it was. *)
Definition serve (pol : SanitizationPolicy) (self : HTML5XBlock) (r : request)
  : response * HTML5XBlock :=
  match r with
  | ReadHtml => (Rendered (html pol self), self)
  | SetAllowJavascript b => (Saved, set_allow_javascript b self)
  | UpdateContent payload =>
      match update_content self payload with
      | inr (m, self') => (Json m, self')
      | inl e => (Failed e, self)
      end
  end.

Fixpoint serve_all (pol : SanitizationPolicy) (self : HTML5XBlock) (rs : list request)
  : HTML5XBlock :=
  match rs with
  | [] => self
  | r :: rs' => serve_all pol (snd (serve pol self r)) rs'
  end.

(** The body the author submitted last: the content of the last payload
    that carried one, or the body before the requests. *)
Fixpoint last_submitted (body : string) (rs : list request) : string :=
  match rs with
  | [] => body
  | UpdateContent payload :: rs' =>
      match payload !! "content" with
      | Some c => last_submitted c rs'
      | None => last_submitted body rs'
      end
  | _ :: rs' => last_submitted body rs'
  end.

(* ===================================================================== *)
(** ** The translation bundle *)
(* ===================================================================== *)

(** [s.split(sep)] for a one-character separator. *)
Fixpoint split (sep : ascii) (s : string) : list string :=
  match s with
  | EmptyString => [EmptyString]
  | String c s' =>
      if Ascii.eqb c sep then EmptyString :: split sep s'
      else match split sep s' with
           | h :: t => String c h :: t
           | [] => [String c EmptyString]
           end
  end.

(** [l[0]]. *)
Definition first_item (l : list string) : result string :=
  match l with
  | x :: _ => ret x
  | [] => raise IndexError
  end.

(** ['public/js/translations/{locale_code}/text.js'.format(locale_code=code)] *)
Definition text_js (code : string) : string :=
  "public/js/translations/" ++ code ++ "/text.js".

(** The loop over the candidate codes, returning at the first bundle that
    is packaged. *)
Fixpoint first_bundle (resources : gset string) (codes : list string) : option string :=
  match codes with
  | [] => None
  | code :: rest =>
      if bool_decide (text_js code ∈ resources) then Some (text_js code)
      else first_bundle resources rest
  end.

(** [_get_statici18n_js_url()]: [language] is what
    [translation.get_language()] answers, [resources] the files of the
    package. *)
Definition _get_statici18n_js_url (language : option string) (resources : gset string)
  : result (option string) :=
  match language with
  | None => ret None
  | Some locale_code =>
      let* lang_code := first_item (split "-"%char locale_code) in
      ret (first_bundle resources [locale_code; lang_code; "en"])
  end.

(** The bare language of a locale code: what precedes its first hyphen. *)
Fixpoint language_of (locale_code : string) : string :=
  match locale_code with
  | EmptyString => EmptyString
  | String c s' => if Ascii.eqb c "-"%char then EmptyString else String c (language_of s')
  end.

(* ===================================================================== *)
(** ** Predicates on tokens *)
(* ===================================================================== *)

(** Names and values as the tokenizer produces and the printer expects
    them. *)
Definition wf_name (n : name) : Prop :=
  n ≠ [] ∧ Forall (fun c => is_name_char c = true) n.

Definition wf_attr (a : attribute) : Prop :=
  wf_name (fst a) ∧ Forall (fun c => is_quote c = false) (snd a).

Definition wf_token (t : token) : Prop :=
  match t with
  | Chr c => is_lt c = false
  | Open n attrs => wf_name n ∧ Forall wf_attr attrs
  | Close n => wf_name n
  end.

Definition wf_state (st : lex_state) : Prop :=
  match st with
  | Text | TagStart | EndStart => True
  | EndName n | EndRest n | TagName n => wf_name n
  | BeforeAttr n attrs | SelfClose n attrs => wf_name n ∧ Forall wf_attr attrs
  | AttrName n attrs a | AttrEq n attrs a =>
      wf_name n ∧ Forall wf_attr attrs ∧ wf_name a
  | AttrValue n attrs a v =>
      wf_name n ∧ Forall wf_attr attrs ∧ wf_name a
      ∧ Forall (fun c => is_quote c = false) v
  end.


(** Every [href] and [src] of the token has a safe scheme or none. *)
Definition urls_safe (t : token) : bool :=
  match t with
  | Open _ attrs =>
      forallb (fun a => if is_url_attr (fst a) then safe_url (snd a) else true) attrs
  | _ => true
  end.

(** What the filter lets through. *)
Definition passes (pol : SanitizationPolicy) (t : token) : Prop :=
  match t with
  | Chr _ => True
  | Open n attrs =>
      is_script n = false ∧ tag_allowed pol n = true
      ∧ Forall (fun a => keep_attr pol n a = true) attrs
  | Close n => is_script n = false ∧ tag_allowed pol n = true
  end.

Definition a_name : name := list_ascii_of_string "a".
Definition href_name : name := list_ascii_of_string "href".

(** A string in double quotes, as an attribute value is written. *)
Definition quoted (v : string) : string :=
  (String quote_char v ++ String quote_char EmptyString)%string.

(** An anchor around plain text, with one [href]. *)
Definition anchor (attrs : list attribute) (text : list ascii) : list token :=
  Open a_name attrs :: map Chr text ++ [Close a_name].

(* ===================================================================== *)
(** ** The views: fragments, packaged resources and the editing form *)
(* ===================================================================== *)

(** What the views can raise besides the exceptions above: a packaged
    file that is not there, one that is no UTF-8 text, the failed
    assertion of [get_editable_fields], and whatever a collaborator
    outside this module raises. *)
Inductive view_error :=
| Raised (e : exn)
| IOError (path : string)
| UnicodeDecodeError (path : string)
| AssertionError
| Other (what : string).

(** The scopes a field can be declared with. *)
Inductive Scope :=
| content
| settings
| user_state
| preferences
| user_info
| user_state_summary.

Definition scope_eqb (s1 s2 : Scope) : bool :=
  match s1, s2 with
  | content, content | settings, settings | user_state, user_state
  | preferences, preferences | user_info, user_info
  | user_state_summary, user_state_summary => true
  | _, _ => false
  end.

(** A declared field: its class and its scope. *)
Inductive FieldType := StringField | BooleanField.

Record Field := {
  field_type : FieldType;
  scope : Scope
}.

(** The fields the class declares, by name; those it inherits are not
    among its [editable_fields]. *)
Definition declared_fields : gmap string Field :=
  {[ "display_name" := {| field_type := StringField; scope := settings |};
     "data" := {| field_type := StringField; scope := content |};
     "allow_javascript" := {| field_type := BooleanField; scope := content |};
     "editor" := {| field_type := StringField; scope := settings |} ]}.

(** [editable_fields] *)
Definition editable_fields : list string :=
  ["display_name"; "editor"; "allow_javascript"].

(** The calls a view makes on its fragment, in the order it makes them. *)
Inductive frag_call :=
| SetContent (html : string)
| AddCss (text : string)
| AddJavascript (text : string)
| AddJavascriptUrl (url : string)
| InitializeJs (js_init_fn : string) (editor_mode skin_url : string)
    (external_plugins : gmap string string).

(** The bytes of a packaged file, as far as [decode('utf8')] tells them
    apart: the text they decode to, or bytes that do not decode. *)
Inductive packaged_file :=
| Utf8 (text : string)
| NotUtf8.

(** What the views take from outside the module: the files of this
    package and of the utilities package, the runtime's URL of a resource
    of the block, the current language, the template renderers and the
    mixin's [_make_field_info]. *)
Record Environment (Info : Type) := {
  package : gmap string packaged_file;
  utils_package : gmap string packaged_file;
  local_resource_url : HTML5XBlock → string → string;
  get_language : option string;
  render_lms : HTML5XBlock → view_error + string;
  render_studio : HTML5XBlock → string → view_error + string;
  render_settings : list Info → view_error + string;
  _make_field_info : HTML5XBlock → string → Field → view_error + option Info
}.

Arguments package {Info} _.
Arguments utils_package {Info} _.
Arguments local_resource_url {Info} _ _ _.
Arguments get_language {Info} _.
Arguments render_lms {Info} _ _.
Arguments render_studio {Info} _ _ _.
Arguments render_settings {Info} _ _.
Arguments _make_field_info {Info} _ _ _ _.

(** A step of a view: it may extend the fragment and then returns or
    raises; what was added before an exception stays added. *)
Definition frag_op (A : Type) : Type :=
  list frag_call → (view_error + A) * list frag_call.

Definition fret {A} (a : A) : frag_op A := fun frag => (inr a, frag).

Definition fbind {A B} (m : frag_op A) (k : A → frag_op B) : frag_op B :=
  fun frag =>
    match m frag with
    | (inl e, frag') => (inl e, frag')
    | (inr a, frag') => k a frag'
    end.

Definition call (c : frag_call) : frag_op unit :=
  fun frag => (inr tt, frag ++ [c]).

Definition lift {A} (r : view_error + A) : frag_op A := fun frag => (r, frag).

Notation "'let+' x ':=' m 'in' k" := (fbind m (fun x => k))
  (at level 10, x name, m at level 100, k at level 200, only parsing).
Notation "m ';;' k" := (fbind m (fun _ => k))
  (at level 100, k at level 200, right associativity, only parsing).

(** [resource_string(path)]: the bytes of a packaged file, decoded. *)
Definition resource_string (files : gmap string packaged_file) (path : string)
  : view_error + string :=
  match files !! path with
  | Some (Utf8 text) => inr text
  | Some NotUtf8 => inl (UnicodeDecodeError path)
  | None => inl (IOError path)
  end.

Definition html_css : string := "static/css/html.css".

Definition codemirror_css : string :=
  "public/plugins/codemirror/codemirror-4.8/lib/codemirror.css".

(** [add_stylesheets(self, frag)] *)
Definition add_stylesheets {Info} (env : Environment Info) (self : HTML5XBlock)
  : frag_op unit :=
  let+ css := lift (resource_string (package env) html_css) in
  call (AddCss css) ;;
  if String.eqb (editor self) "raw" then
    let+ css := lift (resource_string (package env) codemirror_css) in
    call (AddCss css)
  else fret tt.

Definition tinymce_js : string := "static/js/tinymce/tinymce.min.js".
Definition theme_js : string := "static/js/tinymce/themes/modern/theme.min.js".
Definition html_xblock_js : string := "static/js/html_xblock.js".
Definition studio_edit_js : string := "public/studio_edit.js".
Definition code_mirror_dir : string := "public/plugins/codemirror/codemirror-4.8/".

(** [add_scripts(self, frag)]; [loader.load_unicode] reads from the
    utilities package. *)
Definition add_scripts {Info} (env : Environment Info) (self : HTML5XBlock)
  : frag_op unit :=
  let+ js := lift (resource_string (package env) tinymce_js) in
  call (AddJavascript js) ;;
  let+ js := lift (resource_string (package env) theme_js) in
  call (AddJavascript js) ;;
  let+ js := lift (resource_string (package env) html_xblock_js) in
  call (AddJavascript js) ;;
  let+ js := lift (resource_string (utils_package env) studio_edit_js) in
  call (AddJavascript js) ;;
  if String.eqb (editor self) "raw" then
    let+ js := lift (resource_string (package env)
                       (code_mirror_dir ++ "lib/codemirror.js")%string) in
    call (AddJavascript js) ;;
    let+ js := lift (resource_string (package env)
                       (code_mirror_dir ++ "mode/xml/xml.js")%string) in
    call (AddJavascript js)
  else fret tt.

(** ['public/plugins/{plugin}/plugin.min.js'.format(plugin=plugin)] *)
Definition plugin_path (plugin : string) : string :=
  ("public/plugins/" ++ plugin ++ "/plugin.min.js")%string.

Definition plugins : list string :=
  ["codesample"; "image"; "link"; "lists"; "textcolor"; "codemirror"].

(** A dictionary comprehension [{k: f(k) for k in keys}]: the entries are
    stored in order, a later one replacing an earlier one of the same
    key. *)
Definition dict_comprehension (f : string → string) (keys : list string)
  : gmap string string :=
  fold_left (fun d k => <[k := f k]> d) keys ∅.

(** [get_editor_plugins(self)] *)
Definition get_editor_plugins {Info} (env : Environment Info) (self : HTML5XBlock)
  : gmap string string :=
  dict_comprehension (fun plugin => local_resource_url env self (plugin_path plugin))
    plugins.

(** The loop of [get_editable_fields(self)] over the names still to visit,
    [fields] being the list built so far. *)
Fixpoint editable_fields_loop {Info} (env : Environment Info) (self : HTML5XBlock)
  (class_fields : gmap string Field) (names : list string) (fields : list Info)
  : view_error + list Info :=
  match names with
  | [] => inr fields
  | field_name :: names' =>
      match class_fields !! field_name with
      | None => inl (Raised (KeyError field_name))
      | Some field =>
          if scope_eqb (scope field) content || scope_eqb (scope field) settings then
            match _make_field_info env self field_name field with
            | inl e => inl e
            | inr (Some field_info) =>
                editable_fields_loop env self class_fields names' (fields ++ [field_info])
            | inr None => editable_fields_loop env self class_fields names' fields
            end
          else inl AssertionError
      end
  end.

(** [get_editable_fields(self)], for a class with the fields
    [class_fields] and the tuple [names] as its [editable_fields]. *)
Definition get_editable_fields {Info} (env : Environment Info) (self : HTML5XBlock)
  (class_fields : gmap string Field) (names : list string) : view_error + list Info :=
  editable_fields_loop env self class_fields names [].

(** [_get_statici18n_js_url()] as the views call it: on the current
    language and the files of the package. *)
Definition statici18n_js_url {Info} (env : Environment Info) : view_error + option string :=
  match _get_statici18n_js_url (get_language env) (dom (package env)) with
  | inl e => inl (Raised e)
  | inr url => inr url
  end.

(** The truth value of an optional string in a condition. *)
Definition truthy (o : option string) : bool :=
  match o with
  | Some EmptyString | None => false
  | Some _ => true
  end.

Definition prism_css : string := "public/plugins/codesample/css/prism.css".
Definition prism_js : string := "public/plugins/codesample/js/prism.js".

(** [student_view(self, context)], on the fragment it creates. *)
Definition student_view {Info} (env : Environment Info) (self : HTML5XBlock)
  : frag_op unit :=
  let+ page := lift (render_lms env self) in
  call (SetContent page) ;;
  let+ css := lift (resource_string (package env) prism_css) in
  call (AddCss css) ;;
  let+ js := lift (resource_string (package env) prism_js) in
  call (AddJavascript js).

(** [studio_view(self, context)], on the fragment it creates. *)
Definition studio_view {Info} (env : Environment Info) (self : HTML5XBlock)
  : frag_op unit :=
  let+ settings_fields := lift (get_editable_fields env self declared_fields
                                  editable_fields) in
  let+ settings_page := lift (render_settings env settings_fields) in
  let+ page := lift (render_studio env self settings_page) in
  call (SetContent page) ;;
  add_stylesheets env self ;;
  let+ statici18n_js_url := lift (statici18n_js_url env) in
  (if truthy statici18n_js_url
   then call (AddJavascriptUrl
                (local_resource_url env self (default EmptyString statici18n_js_url)))
   else fret tt) ;;
  add_scripts env self ;;
  call (InitializeJs "HTML5XBlock" (editor self)
          (local_resource_url env self "public/skin") (get_editor_plugins env self)).

(** A view run on [Fragment()]: the fragment it returns, or what it
    raises. *)
Definition run_view (view : frag_op unit) : view_error + list frag_call :=
  match view [] with
  | (inr _, frag) => inr frag
  | (inl e, _) => inl e
  end.

(** The resources of one kind that a fragment carries. *)
Definition stylesheets (frag : list frag_call) : list string :=
  omap (fun c => match c with AddCss text => Some text | _ => None end) frag.

Definition scripts (frag : list frag_call) : list string :=
  omap (fun c => match c with AddJavascript text => Some text | _ => None end) frag.

Definition script_urls (frag : list frag_call) : list string :=
  omap (fun c => match c with AddJavascriptUrl url => Some url | _ => None end) frag.

(** The block is edited with the raw editor: [self.editor == 'raw']. *)
Definition raw_mode (self : HTML5XBlock) : bool := String.eqb (editor self) "raw".

(** The scopes [get_editable_fields] accepts. *)
Definition author_scope (s : Scope) : Prop := s = content ∨ s = settings.

(** Where an entry of the editing form comes from: [_make_field_info] on
    one of the names [all] and the field declared under it. *)
Definition made_for {Info} (env : Environment Info) (self : HTML5XBlock)
  (class_fields : gmap string Field) (all : list string) (info : Info) : Prop :=
  ∃ n f, n ∈ all ∧ class_fields !! n = Some f
         ∧ _make_field_info env self n f = inr (Some info).

(** Reading files one after the other, each from its package: the texts
    read before the first file that cannot be read, and what that file
    raised. *)
Fixpoint read_all (files : list (gmap string packaged_file * string))
  : list string * option view_error :=
  match files with
  | [] => ([], None)
  | (pkg, path) :: rest =>
      match resource_string pkg path with
      | inl e => ([], Some e)
      | inr text => (text :: fst (read_all rest), snd (read_all rest))
      end
  end.

Definition outcome (failure : option view_error) : view_error + unit :=
  match failure with
  | Some e => inl e
  | None => inr tt
  end.

(** The file can be read: it is packaged and is UTF-8 text. *)
Definition readable (file : gmap string packaged_file * string) : Prop :=
  ∃ text, fst file !! snd file = Some (Utf8 text).

(** The files of the style sheets and of the scripts of the Studio view,
    in the order of the source. *)
Definition stylesheet_files {Info} (env : Environment Info) (self : HTML5XBlock)
  : list (gmap string packaged_file * string) :=
  (package env, html_css)
  :: (if raw_mode self then [(package env, codemirror_css)] else []).

Definition script_files {Info} (env : Environment Info) (self : HTML5XBlock)
  : list (gmap string packaged_file * string) :=
  [(package env, tinymce_js); (package env, theme_js); (package env, html_xblock_js);
   (utils_package env, studio_edit_js)]
  ++ (if raw_mode self
      then [(package env, (code_mirror_dir ++ "lib/codemirror.js")%string);
            (package env, (code_mirror_dir ++ "mode/xml/xml.js")%string)]
      else []).

(** The translation bundle the views load: the first packaged one among
    the locale, its bare language and English. *)
Definition translation_bundle {Info} (env : Environment Info) : option string :=
  match get_language env with
  | None => None
  | Some locale_code =>
      first_bundle (dom (package env)) [locale_code; language_of locale_code; "en"]
  end.

(** The URLs of the translation scripts of the Studio view: that of the
    bundle, if there is one. *)
Definition translation_urls {Info} (env : Environment Info) (self : HTML5XBlock)
  : list string :=
  match translation_bundle env with
  | Some path => [local_resource_url env self path]
  | None => []
  end.

(** The call that starts the editor, the last one of the Studio view. *)
Definition initialize_editor {Info} (env : Environment Info) (self : HTML5XBlock)
  : frag_call :=
  InitializeJs "HTML5XBlock" (editor self) (local_resource_url env self "public/skin")
    (get_editor_plugins env self).

(** The same surroundings with other files in the package. *)
Definition with_package {Info} (files : gmap string packaged_file)
  (env : Environment Info) : Environment Info :=
  {| package := files;
     utils_package := utils_package env;
     local_resource_url := local_resource_url env;
     get_language := get_language env;
     render_lms := render_lms env;
     render_studio := render_studio env;
     render_settings := render_settings env;
     _make_field_info := _make_field_info env |}.

(** An installation to run the views on: every file the views read is
    packaged, with a French and an English translation bundle; the
    language is Canadian French; a field is described by its name. *)
Definition demo_package : gmap string packaged_file :=
  list_to_map
    [(html_css, Utf8 ".html5{}");
     (codemirror_css, Utf8 ".CodeMirror{}");
     (tinymce_js, Utf8 "tinymce");
     (theme_js, Utf8 "theme");
     (html_xblock_js, Utf8 "function HTML5XBlock(){}");
     ((code_mirror_dir ++ "lib/codemirror.js")%string, Utf8 "codemirror");
     ((code_mirror_dir ++ "mode/xml/xml.js")%string, Utf8 "xml");
     (prism_css, Utf8 ".token{}");
     (prism_js, Utf8 "prism");
     (text_js "fr", Utf8 "fr");
     (text_js "en", Utf8 "en")].

Definition demo_env : Environment string :=
  {| package := demo_package;
     utils_package := {[ studio_edit_js := Utf8 "function StudioEditableXBlockMixin(){}" ]};
     local_resource_url := fun _ path => ("/resource/html5/" ++ path)%string;
     get_language := Some "fr-ca";
     render_lms := fun self => inr (html default_policy self);
     render_studio := fun self settings_page => inr (data self ++ settings_page)%string;
     render_settings := fun fields => inr (String.concat "," fields);
     _make_field_info := fun _ field_name _ => inr (Some field_name) |}.

(** A block edited with the raw editor. *)
Definition raw_block : HTML5XBlock :=
  {| display_name := "Text"; data := "<p>hello</p>"; allow_javascript := false;
     editor := "raw" |}.


(* ===================================================================== *)
(** ** Markup as a reader sees it *)
(* ===================================================================== *)












(* ===================================================================== *)
(** * Properties *)
(* ===================================================================== *)

(** ** Character classes *)

Ltac char_arith :=
  repeat progress unfold is_space, is_upper, is_lower, is_digit, is_name_char,
    is_lt, is_gt, is_slash, is_eq, is_quote, is_amp, is_colon in *;
  rewrite ?orb_true_iff, ?andb_true_iff, ?orb_false_iff, ?andb_false_iff,
    ?Nat.eqb_eq, ?Nat.eqb_neq, ?Nat.leb_le, ?Nat.leb_gt in *;
  lia.

Lemma name_char_not_upper c : is_name_char c = true → is_upper c = false.
Proof. intros H. char_arith. Qed.

Lemma lower_name_char c : is_name_char c = true → lower c = c.
Proof. intros H. unfold lower. by rewrite name_char_not_upper. Qed.

Lemma name_char_other c :
  is_name_char c = true →
  is_space c = false ∧ is_lt c = false ∧ is_gt c = false ∧ is_slash c = false
  ∧ is_eq c = false ∧ is_quote c = false.
Proof. intros H. char_arith. Qed.

(** ** The tokenizer produces well-formed tokens *)

Lemma wf_name_single c : is_name_char c = true → wf_name [c].
Proof. intros H. split; [done | by constructor]. Qed.

Lemma wf_name_snoc n c : wf_name n → is_name_char c = true → wf_name (n ++ [c]).
Proof.
  intros [_ Hn] Hc. split.
  - by destruct n.
  - apply Forall_app. split; [done | by constructor].
Qed.

Lemma wf_attrs_snoc attrs a v :
  Forall wf_attr attrs → wf_name a → Forall (fun c => is_quote c = false) v →
  Forall wf_attr (attrs ++ [(a, v)]).
Proof.
  intros Hattrs Ha Hv. apply Forall_app. split; [done |].
  constructor; [by split | constructor].
Qed.

Create HintDb lexer.
#[local] Hint Resolve wf_name_single wf_name_snoc wf_attrs_snoc : lexer.
#[local] Hint Constructors Forall : lexer.

Lemma lex_step_wf st c st' o :
  wf_state st → lex_step st c = Some (st', o) →
  wf_state st' ∧ (∀ t, o = Some t → wf_token t).
Proof.
  intros Hst Hstep.
  destruct st; simpl in *;
    repeat match goal with
      | H : context [if ?b then _ else _] |- _ => destruct b eqn:?
      end;
    simplify_eq; simpl;
    (split; [| intros t Ht; simplify_eq; simpl]);
    intuition eauto with lexer.
  apply Forall_app. split; [done | by constructor].
Qed.

Lemma lex_wf st s ts : wf_state st → lex st s = Some ts → Forall wf_token ts.
Proof.
  revert st ts. induction s as [| c s IH]; intros st ts Hst Hlex; simpl in Hlex.
  - destruct st; simplify_eq. constructor.
  - destruct (lex_step st c) as [[st' [t |]] |] eqn:Hstep; [| | done].
    + destruct (lex_step_wf _ _ _ _ Hst Hstep) as [Hst' Ht].
      destruct (lex st' s) as [ts' |] eqn:Hrest; simplify_eq/=.
      constructor; eauto.
    + destruct (lex_step_wf _ _ _ _ Hst Hstep) as [Hst' _]. eauto.
Qed.

Lemma tokenize_wf s ts : tokenize s = Some ts → Forall wf_token ts.
Proof. apply lex_wf. exact I. Qed.

(** ** Printing then tokenizing gives the tokens back *)

Lemma lex_name_chars (mk : name → lex_state) (n acc rest : list ascii) :
  (∀ m c, is_name_char (lower c) = true →
          lex_step (mk m) c = Some (mk (m ++ [lower c]), None)) →
  Forall (fun c => is_name_char c = true) n →
  lex (mk acc) (n ++ rest) = lex (mk (acc ++ n)) rest.
Proof.
  intros Hmk Hn. revert acc.
  induction Hn as [| c n Hc _ IH]; intros acc; simpl.
  - by rewrite app_nil_r.
  - rewrite Hmk by (by rewrite lower_name_char).
    rewrite lower_name_char by done.
    rewrite IH. by rewrite <- app_assoc.
Qed.

Lemma lex_EndName n acc rest :
  Forall (fun c => is_name_char c = true) n →
  lex (EndName acc) (n ++ rest) = lex (EndName (acc ++ n)) rest.
Proof.
  apply (lex_name_chars EndName). intros m c Hc. simpl. by rewrite Hc.
Qed.

Lemma lex_TagName n acc rest :
  Forall (fun c => is_name_char c = true) n →
  lex (TagName acc) (n ++ rest) = lex (TagName (acc ++ n)) rest.
Proof.
  apply (lex_name_chars TagName). intros m c Hc. simpl. by rewrite Hc.
Qed.

Lemma lex_AttrName n attrs a acc rest :
  Forall (fun c => is_name_char c = true) a →
  lex (AttrName n attrs acc) (a ++ rest) = lex (AttrName n attrs (acc ++ a)) rest.
Proof.
  apply (lex_name_chars (AttrName n attrs)). intros m c Hc. simpl. by rewrite Hc.
Qed.

Lemma lex_AttrValue n attrs a v acc rest :
  Forall (fun c => is_quote c = false) v →
  lex (AttrValue n attrs a acc) (v ++ rest) = lex (AttrValue n attrs a (acc ++ v)) rest.
Proof.
  intros Hv. revert acc. induction Hv as [| c v Hc _ IH]; intros acc; simpl.
  - by rewrite app_nil_r.
  - rewrite Hc, IH. by rewrite <- app_assoc.
Qed.

Lemma is_gt_gt : is_gt ">" = true.
Proof. reflexivity. Qed.

Lemma lex_start_name st (mk : name → lex_state) n rest :
  (∀ c, is_name_char c = true → lex_step st c = Some (mk [c], None)) →
  (∀ acc s, Forall (fun c => is_name_char c = true) s →
            lex (mk acc) (s ++ rest) = lex (mk (acc ++ s)) rest) →
  wf_name n →
  lex st (n ++ rest) = lex (mk n) rest.
Proof.
  intros Hst Hmk [Hne Hn]. destruct n as [| c n]; [done |].
  inversion Hn; subst. simpl. rewrite Hst by done. by rewrite Hmk.
Qed.

Lemma lex_render_attr n attrs a rest :
  wf_attr a →
  lex (BeforeAttr n attrs) (render_attr a ++ rest)
  = lex (BeforeAttr n (attrs ++ [a])) rest.
Proof.
  intros [Ha Hv]. destruct a as [a v]. simpl in *. unfold render_attr. simpl.
  rewrite <- !app_assoc. simpl.
  rewrite (lex_start_name (BeforeAttr n attrs) (AttrName n attrs)); [| | | done].
  - simpl. destruct Ha as [_ Ha].
    rewrite <- app_assoc. simpl.
    rewrite (lex_AttrValue n attrs a v []) by done. simpl. done.
  - intros c Hc. simpl. destruct (name_char_other c Hc) as (-> & _ & -> & -> & _).
    by rewrite lower_name_char, Hc.
  - intros acc s Hs. by apply lex_AttrName.
Qed.

Lemma render_attrs_cons a attrs :
  render_attrs (a :: attrs) = render_attr a ++ render_attrs attrs.
Proof. reflexivity. Qed.

Lemma render_cons t ts : render (t :: ts) = render_token t ++ render ts.
Proof. reflexivity. Qed.

Lemma lex_render_attrs n acc attrs rest :
  Forall wf_attr attrs →
  lex (BeforeAttr n acc) (render_attrs attrs ++ rest)
  = lex (BeforeAttr n (acc ++ attrs)) rest.
Proof.
  intros Hattrs. revert acc.
  induction Hattrs as [| a attrs Ha _ IH]; intros acc.
  - by rewrite app_nil_r.
  - rewrite render_attrs_cons, <- app_assoc.
    rewrite lex_render_attr by done.
    rewrite IH. by rewrite <- app_assoc.
Qed.

(** The space that opens the first attribute leaves the tag name. *)
Lemma lex_TagName_space n a rest :
  lex (TagName n) (render_attr a ++ rest)
  = lex (BeforeAttr n []) (render_attr a ++ rest).
Proof. reflexivity. Qed.

Lemma lex_TagName_attrs n attrs rest :
  Forall wf_attr attrs →
  lex (TagName n) (render_attrs attrs ++ ">"%char :: rest)
  = cons (Open n attrs) <$> lex Text rest.
Proof.
  intros Hattrs. destruct Hattrs as [| a attrs Ha Hattrs].
  - reflexivity.
  - rewrite render_attrs_cons, <- app_assoc, lex_TagName_space.
    rewrite lex_render_attr by done.
    rewrite lex_render_attrs by done. reflexivity.
Qed.

Lemma lex_render_token t rest :
  wf_token t →
  lex Text (render_token t ++ rest) = cons t <$> lex Text rest.
Proof.
  destruct t as [c | n attrs | n]; simpl.
  - intros ->. reflexivity.
  - intros [Hn Hattrs]. rewrite <- !app_assoc. simpl.
    rewrite (lex_start_name TagStart TagName); [| | | done].
    + by apply lex_TagName_attrs.
    + intros c Hc. simpl. destruct (name_char_other c Hc) as (_ & _ & _ & -> & _).
      by rewrite lower_name_char, Hc.
    + intros acc s Hs. by apply lex_TagName.
  - intros Hn. rewrite <- !app_assoc. simpl.
    rewrite (lex_start_name EndStart EndName); [| | | done].
    + simpl. destruct Hn as [_ Hn]. reflexivity.
    + intros c Hc. simpl. by rewrite lower_name_char, Hc.
    + intros acc s Hs. by apply lex_EndName.
Qed.

Lemma tokenize_render ts :
  Forall wf_token ts → tokenize (render ts) = Some ts.
Proof.
  unfold tokenize. induction 1 as [| t ts Ht _ IH].
  - reflexivity.
  - rewrite render_cons, lex_render_token by done. by rewrite IH.
Qed.

(** ** The filter *)

Lemma filter_keeps_wf pol n attrs :
  Forall wf_attr attrs → Forall wf_attr (List.filter (keep_attr pol n) attrs).
Proof.
  induction 1 as [| a attrs Ha _ IH]; simpl; [constructor |].
  destruct (keep_attr pol n a); [by constructor | done].
Qed.

Lemma filter_keeps pol n attrs :
  Forall (fun a => keep_attr pol n a = true) (List.filter (keep_attr pol n) attrs).
Proof.
  induction attrs as [| a attrs IH]; simpl; [constructor |].
  destruct (keep_attr pol n a) eqn:Ha; [by constructor | done].
Qed.

Lemma filter_kept pol n attrs :
  Forall (fun a => keep_attr pol n a = true) attrs →
  List.filter (keep_attr pol n) attrs = attrs.
Proof.
  induction 1 as [| a attrs Ha _ IH]; simpl; [done |].
  by rewrite Ha, IH.
Qed.

Lemma clean_wf pol b ts :
  Forall wf_token ts → Forall wf_token (clean pol b ts).
Proof.
  intros Hts. revert b.
  induction Hts as [| t ts Ht _ IH]; intros b; simpl; [constructor |].
  destruct b, t as [c | n attrs | n]; simpl in *; auto;
    repeat case_match; auto; constructor; simpl; auto.
  destruct Ht. split; [done | by apply filter_keeps_wf].
Qed.

Lemma clean_passes pol b ts : Forall (passes pol) (clean pol b ts).
Proof.
  revert b. induction ts as [| t ts IH]; intros b; simpl; [constructor |].
  destruct b, t as [c | n attrs | n]; simpl; auto;
    repeat case_match; auto; constructor; simpl; auto.
  repeat split; [done.. | apply filter_keeps].
Qed.

Lemma clean_passed pol ts :
  Forall (passes pol) ts → clean pol false ts = ts.
Proof.
  induction 1 as [| t ts Ht _ IH]; simpl; [done |].
  destruct t as [c | n attrs | n]; simpl in Ht.
  - by rewrite IH.
  - destruct Ht as (-> & -> & Hattrs). by rewrite filter_kept, IH.
  - destruct Ht as (-> & ->). by rewrite IH.
Qed.

Lemma clean_clean pol b ts :
  clean pol false (clean pol b ts) = clean pol b ts.
Proof. apply clean_passed, clean_passes. Qed.

Lemma passes_urls_safe pol t : passes pol t → urls_safe t = true.
Proof.
  destruct t as [c | n attrs | n]; simpl; [done | | done].
  intros (_ & _ & Hattrs). apply forallb_forall. intros a Ha.
  rewrite Forall_forall in Hattrs. specialize (Hattrs a).
  rewrite <- list_elem_of_In in Ha. specialize (Hattrs Ha).
  unfold keep_attr in Hattrs. rewrite !andb_true_iff in Hattrs. tauto.
Qed.

(** ** Plain text and the fallback *)

Lemma lex_text s :
  Forall (fun c => is_lt c = false) s → lex Text s = Some (map Chr s).
Proof.
  induction 1 as [| c s Hc _ IH]; simpl; [done |]. by rewrite Hc, IH.
Qed.

Lemma render_text s : render (map Chr s) = s.
Proof. induction s as [| c s IH]; [done |]. rewrite <- IH at 2. reflexivity. Qed.

Lemma clean_text pol s : clean pol false (map Chr s) = map Chr s.
Proof. induction s as [| c s IH]; simpl; [done |]. by rewrite IH. Qed.

Lemma escape_char_no_markup c :
  Forall (fun c' => is_lt c' = false ∧ is_gt c' = false ∧ is_quote c' = false)
    (escape_char c).
Proof.
  unfold escape_char.
  destruct (is_lt c) eqn:Hlt; [repeat constructor |].
  destruct (is_gt c) eqn:Hgt; [repeat constructor |].
  destruct (is_amp c) eqn:Hamp; [repeat constructor |].
  destruct (is_quote c) eqn:Hq; [repeat constructor |].
  by repeat constructor.
Qed.

Lemma escape_no_markup s :
  Forall (fun c' => is_lt c' = false ∧ is_gt c' = false ∧ is_quote c' = false)
    (escape s).
Proof.
  unfold escape. induction s as [| c s IH]; simpl; [constructor |].
  apply Forall_app. split; [apply escape_char_no_markup | done].
Qed.

Lemma escape_no_lt s : Forall (fun c => is_lt c = false) (escape s).
Proof. eapply Forall_impl; [apply escape_no_markup |]. simpl. tauto. Qed.

Lemma tokenize_escape s : tokenize (escape s) = Some (map Chr (escape s)).
Proof. apply lex_text, escape_no_lt. Qed.

(** ** The sanitizer on character lists *)

(** The output of the sanitizer tokenizes, to tokens the filter lets
    through, and printing them gives the output back. *)
Lemma sanitize_chars_tokens pol s :
  ∃ ts, tokenize (sanitize_chars pol s) = Some ts
        ∧ Forall (passes pol) ts
        ∧ render ts = sanitize_chars pol s.
Proof.
  unfold sanitize_chars. destruct (tokenize s) as [ts |] eqn:Hs.
  - exists (clean pol false ts). split; [| split; [apply clean_passes | done]].
    apply tokenize_render, clean_wf. eapply tokenize_wf, Hs.
  - exists (map Chr (escape s)). split; [apply tokenize_escape |].
    split; [| apply render_text].
    rewrite <- (clean_text pol). apply clean_passes.
Qed.

Lemma sanitize_chars_idempotent pol s :
  sanitize_chars pol (sanitize_chars pol s) = sanitize_chars pol s.
Proof.
  destruct (sanitize_chars_tokens pol s) as (ts & Htok & Hpass & Hrender).
  unfold sanitize_chars at 1. rewrite Htok.
  by rewrite clean_passed.
Qed.

(** ** The sanitizer on strings *)

Lemma tokens_of_sanitize pol x :
  ∃ ts, tokens_of (sanitize pol x) = Some ts ∧ Forall (passes pol) ts.
Proof.
  unfold tokens_of, sanitize. rewrite list_ascii_of_string_of_list_ascii.
  destruct (sanitize_chars_tokens pol (list_ascii_of_string x)) as (ts & ? & ? & _).
  eauto.
Qed.


(** C1: the [html] property returns the stored body itself when the
    allow-JavaScript flag is set, and the sanitized body when it is not; with
    the flag set the body comes back unchanged, whatever it contains. *)
Theorem html_gate pol self :
  html pol self
  = (if allow_javascript self then data self else sanitize pol (data self))
  ∧ html pol (set_allow_javascript true self) = data self
  ∧ html pol (set_allow_javascript false self) = sanitize pol (data self).
Proof. unfold html, sanitized_html. simpl. by destruct (allow_javascript self). Qed.

(** ** The reader on what the sanitizer prints *)

















(** ** Script elements go with their contents *)






(** C3: [sanitize] is idempotent. *)
Theorem sanitize_idempotent pol x :
  sanitize pol (sanitize pol x) = sanitize pol x.
Proof.
  unfold sanitize. rewrite list_ascii_of_string_of_list_ascii.
  by rewrite sanitize_chars_idempotent.
Qed.

Lemma sanitize_chars_anchor pol v text :
  tag_allowed pol a_name = true →
  attr_allowed pol a_name href_name = true →
  Forall (fun c => is_quote c = false) v →
  Forall (fun c => is_lt c = false) text →
  sanitize_chars pol (render (anchor [(href_name, v)] text))
  = render (anchor (if safe_url v then [(href_name, v)] else []) text).
Proof.
  intros Ha Hhref Hv Htext.
  assert (wf_name a_name) as Hwa by (split; [done | repeat constructor]).
  assert (wf_name href_name) as Hwh by (split; [done | repeat constructor]).
  assert (Forall wf_token (anchor [(href_name, v)] text)) as Hwf.
  { unfold anchor. constructor.
    - split; [done |]. constructor; [by split | constructor].
    - apply Forall_app. split.
      + induction Htext; simpl; by constructor.
      + by repeat constructor. }
  unfold sanitize_chars. rewrite tokenize_render by done.
  f_equal. unfold anchor.
  change (clean pol false (Open a_name [(href_name, v)] :: map Chr text ++ [Close a_name]))
    with (if tag_allowed pol a_name
          then Open a_name (List.filter (keep_attr pol a_name) [(href_name, v)])
                 :: clean pol false (map Chr text ++ [Close a_name])
          else clean pol false (map Chr text ++ [Close a_name])).
  rewrite Ha. f_equal.
  - f_equal. simpl. unfold keep_attr. simpl. rewrite Hhref. simpl.
    change (is_url_attr href_name) with true. simpl.
    by destruct (safe_url v).
  - clear Hwf Htext. induction text as [| c text IH]; simpl.
    + change (is_script a_name) with false. simpl. by rewrite Ha.
    + by rewrite IH.
Qed.

(** C4: in the output of [sanitize] every [href] and [src] has one of the
    schemes http, https and mailto or none (a relative path).  Where the
    policy admits anchors with [href], an anchor whose [href] is safe is
    preserved unchanged and one whose [href] is not loses that attribute. *)
Theorem sanitize_url_schemes pol
  (Ha : tag_allowed pol a_name = true)
  (Hhref : attr_allowed pol a_name href_name = true) :
  (∀ x, ∃ ts, tokens_of (sanitize pol x) = Some ts
              ∧ Forall (fun t => urls_safe t = true) ts)
  ∧ (∀ v text,
       Forall (fun c => is_quote c = false) v →
       Forall (fun c => is_lt c = false) text →
       sanitize_chars pol (render (anchor [(href_name, v)] text))
       = render (anchor (if safe_url v then [(href_name, v)] else []) text))
  ∧ sanitize pol ("<a href=" ++ quoted "https://example.com" ++ ">link</a>")%string
    = ("<a href=" ++ quoted "https://example.com" ++ ">link</a>")%string
  ∧ sanitize pol ("<a href=" ++ quoted "javascript:alert(1)" ++ ">link</a>")%string
    = "<a>link</a>"
  ∧ (∀ v, safe_url v = true ↔
          match scheme_of v with
          | None => True
          | Some s => name_in (map lower s) ["http"; "https"; "mailto"] = true
          end).
Proof.
  split; [| split; [| split; [| split]]].
  - intros x. destruct (tokens_of_sanitize pol x) as (ts & Htok & Hpass).
    exists ts. split; [done |].
    eapply Forall_impl; [exact Hpass |]. intros t. apply passes_urls_safe.
  - intros v text. by apply sanitize_chars_anchor.
  - unfold sanitize.
    change (list_ascii_of_string
              ("<a href=" ++ quoted "https://example.com" ++ ">link</a>")%string)
      with (render (anchor [(href_name, list_ascii_of_string "https://example.com")]
                      (list_ascii_of_string "link"))).
    rewrite sanitize_chars_anchor; [reflexivity | done | done | |];
      repeat constructor.
  - unfold sanitize.
    change (list_ascii_of_string
              ("<a href=" ++ quoted "javascript:alert(1)" ++ ">link</a>")%string)
      with (render (anchor [(href_name, list_ascii_of_string "javascript:alert(1)")]
                      (list_ascii_of_string "link"))).
    rewrite sanitize_chars_anchor; [reflexivity | done | done | |];
      repeat constructor.
  - intros v. unfold safe_url, safe_schemes. destruct (scheme_of v); [done | tauto].
Qed.

Lemma sanitize_url_schemes_witness :
  tag_allowed default_policy a_name = true
  ∧ attr_allowed default_policy a_name href_name = true
  ∧ sanitize default_policy
      ("<a href=" ++ quoted "javascript:alert(1)" ++ ">link</a>")%string
    = "<a>link</a>".
Proof.
  split; [reflexivity | split; [reflexivity |]].
  apply (sanitize_url_schemes default_policy); reflexivity.
Defined.

(** ** The handler and the read path *)

Lemma update_content_some self (payload : gmap string string) c :
  payload !! "content" = Some c →
  update_content self payload = inr ({[ "content" := c ]}, set_data c self).
Proof. intros H. unfold update_content, getitem. by rewrite H. Qed.

Lemma update_content_none self (payload : gmap string string) :
  payload !! "content" = None →
  update_content self payload = inl (KeyError "content").
Proof. intros H. unfold update_content, getitem. by rewrite H. Qed.

(** C6: [update_content] with a payload whose [content] is [c] stores
    exactly [c] as the body, whatever [c] is and whatever else the payload
    holds, leaves the other fields alone and answers [{content: c}]. *)
Theorem update_content_verbatim self (extra : gmap string string) c :
  ∃ self',
    update_content self (<["content" := c]> extra)
    = inr ({[ "content" := c ]}, self')
    ∧ data self' = c
    ∧ display_name self' = display_name self
    ∧ allow_javascript self' = allow_javascript self
    ∧ editor self' = editor self.
Proof.
  exists (set_data c self). split; [| done].
  apply update_content_some, lookup_insert_eq.
Qed.

(** C10: a payload without the key [content] makes [update_content] raise
    the key error of the dictionary access, and the block stays as it was. *)
Theorem update_content_missing_key pol self (payload : gmap string string)
  (Hmissing : payload !! "content" = None) :
  update_content self payload = inl (KeyError "content")
  ∧ serve pol self (UpdateContent payload) = (Failed (KeyError "content"), self).
Proof.
  unfold serve. by rewrite (update_content_none self payload Hmissing).
Qed.

Lemma update_content_missing_key_witness :
  update_content new_block {[ "body" := "<i>new</i>" ]} = inl (KeyError "content").
Proof.
  apply (update_content_missing_key default_policy new_block
           {[ "body" := "<i>new</i>" ]}).
  reflexivity.
Defined.

Lemma serve_all_data pol self rs :
  data (serve_all pol self rs) = last_submitted (data self) rs.
Proof.
  revert self. induction rs as [| r rs IH]; intros self; simpl; [done |].
  rewrite IH. destruct r as [| b | payload]; simpl; [done | done |].
  unfold update_content, getitem.
  by destruct (payload !! "content").
Qed.

Lemma serve_all_reads pol self n :
  serve_all pol self (repeat ReadHtml n) = self.
Proof. induction n as [| n IH]; simpl; [done | exact IH]. Qed.

(** C7: a read of [html] leaves the block as it is; after any requests the
    stored body is the one submitted last, never a sanitized one, and a read
    with the flag set returns it; clearing the flag, reading any number of
    times and setting the flag again gives the original body back. *)
Theorem html_read_only pol self rs n :
  snd (serve pol self ReadHtml) = self
  ∧ data (serve_all pol self rs) = last_submitted (data self) rs
  ∧ html pol (set_allow_javascript true (serve_all pol self rs))
    = last_submitted (data self) rs
  ∧ html pol
      (serve_all pol self
         (SetAllowJavascript false :: repeat ReadHtml n ++ [SetAllowJavascript true]))
    = data self.
Proof.
  split; [done |]. split; [apply serve_all_data |]. split.
  - unfold html. simpl. apply serve_all_data.
  - assert (∀ s l1 l2, serve_all pol s (l1 ++ l2)
                       = serve_all pol (serve_all pol s l1) l2) as Happ.
    { intros s l1. revert s. induction l1; intros s l2; simpl; [done | auto]. }
    simpl. rewrite Happ, serve_all_reads. reflexivity.
Qed.

(** ** The translation bundle *)

Lemma split_first_item s :
  first_item (split "-"%char s) = ret (language_of s).
Proof.
  induction s as [| c s IH]; simpl; [done |].
  destruct (Ascii.eqb c "-"); [done |].
  destruct (split "-" s) as [| h t]; simpl in *; [done |].
  by simplify_eq.
Qed.

(** C9: the lookup returns the bundle of the full locale code if it is
    packaged, else that of the bare language, else the English one, else no
    path; without a locale it returns no path; it never raises. *)
Theorem statici18n_fallback language (resources : gset string) :
  _get_statici18n_js_url language resources
  = ret match language with
        | None => None
        | Some locale_code =>
            if bool_decide (text_js locale_code ∈ resources)
            then Some (text_js locale_code)
            else if bool_decide (text_js (language_of locale_code) ∈ resources)
            then Some (text_js (language_of locale_code))
            else if bool_decide (text_js "en" ∈ resources)
            then Some (text_js "en")
            else None
        end.
Proof.
  destruct language as [locale_code |]; [| done].
  unfold _get_statici18n_js_url. rewrite split_first_item. reflexivity.
Qed.

(* ===================================================================== *)
(** * The views and the rest of the block *)
(* ===================================================================== *)


(** ** The editor plugins *)

Lemma fold_insert_lookup (f : string → string) keys (d : gmap string string) k :
  fold_left (fun d k => <[k := f k]> d) keys d !! k
  = if bool_decide (k ∈ keys) then Some (f k) else d !! k.
Proof.
  revert d. induction keys as [| k' keys IH]; intros d; simpl; [done |].
  rewrite IH. destruct (decide (k = k')) as [-> | Hne].
  - rewrite lookup_insert_eq.
    rewrite (bool_decide_eq_true_2 (k' ∈ k' :: keys)) by left.
    by case_bool_decide.
  - rewrite lookup_insert_ne by done.
    case_bool_decide as Hin.
    + rewrite bool_decide_eq_true_2; [done | by right].
    + rewrite bool_decide_eq_false_2; [done |].
      intros [-> | ?]%elem_of_cons; done.
Qed.

Lemma dict_comprehension_lookup f keys k :
  dict_comprehension f keys !! k = if bool_decide (k ∈ keys) then Some (f k) else None.
Proof. unfold dict_comprehension. by rewrite fold_insert_lookup, lookup_empty. Qed.

Lemma dict_comprehension_dom f keys :
  dom (dict_comprehension f keys) = list_to_set keys.
Proof.
  apply set_eq. intros k. rewrite elem_of_dom, dict_comprehension_lookup, elem_of_list_to_set.
  case_bool_decide; naive_solver.
Qed.

(** X1: [get_editor_plugins] maps each of the six plugins to the runtime's
    URL of its [plugin.min.js] under [public/plugins/], and holds no other
    key. *)
Theorem get_editor_plugins_entries {Info} (env : Environment Info) self :
  (∀ plugin,
     get_editor_plugins env self !! plugin
     = if bool_decide (plugin ∈ plugins)
       then Some (local_resource_url env self (plugin_path plugin))
       else None)
  ∧ size (get_editor_plugins env self) = 6.
Proof.
  split.
  - intros plugin. unfold get_editor_plugins. by rewrite dict_comprehension_lookup.
  - rewrite <- size_dom. unfold get_editor_plugins.
    rewrite dict_comprehension_dom.
    rewrite size_list_to_set; [done |].
    apply (bool_decide_unpack _). by vm_compute.
Qed.

(** ** The handler, once more *)



(** ** The translation bundle, once more *)

Lemma first_bundle_Some resources codes path :
  first_bundle resources codes = Some path →
  path ∈ resources ∧ ∃ code, code ∈ codes ∧ path = text_js code.
Proof.
  induction codes as [| code codes IH]; simpl; [done |].
  case_bool_decide as Hin.
  - intros [= <-]. split; [done |]. exists code. split; [left | done].
  - intros H. destruct (IH H) as (? & code' & ? & ?).
    split; [done |]. exists code'. split; [by right | done].
Qed.

Lemma first_bundle_last resources codes code :
  text_js code ∈ resources → is_Some (first_bundle resources (codes ++ [code])).
Proof.
  intros Hin. induction codes as [| code' codes IH]; simpl.
  - by rewrite bool_decide_eq_true_2.
  - by case_bool_decide.
Qed.

Lemma statici18n_candidates locale_code (resources : gset string) :
  _get_statici18n_js_url (Some locale_code) resources
  = inr (first_bundle resources [locale_code; language_of locale_code; "en"]).
Proof. unfold _get_statici18n_js_url. by rewrite split_first_item. Qed.

(** X3: a path returned by [_get_statici18n_js_url] is a file of the
    package, and is the bundle of the locale, of its bare language or of
    English; none is returned without a language. *)
Theorem statici18n_packaged language (resources : gset string) path
  (Hfound : _get_statici18n_js_url language resources = inr (Some path)) :
  path ∈ resources
  ∧ ∃ locale_code code,
      language = Some locale_code
      ∧ code ∈ [locale_code; language_of locale_code; "en"]
      ∧ path = text_js code.
Proof.
  destruct language as [locale_code |]; [| done].
  rewrite statici18n_candidates in Hfound.
  assert (first_bundle resources [locale_code; language_of locale_code; "en"] = Some path)
    as Hbundle by congruence.
  apply first_bundle_Some in Hbundle as (? & code & ? & ?).
  split; [done |]. by exists locale_code, code.
Qed.

Lemma statici18n_packaged_witness :
  text_js "fr" ∈ ({[ text_js "fr"; text_js "en" ]} : gset string).
Proof.
  apply (statici18n_packaged (Some "fr-ca") {[ text_js "fr"; text_js "en" ]} (text_js "fr")).
  reflexivity.
Defined.

(** X4: with the English bundle packaged, [_get_statici18n_js_url]
    returns a bundle exactly when a language is set. *)
Theorem statici18n_english_fallback language (resources : gset string)
  (Hen : text_js "en" ∈ resources) :
  (∃ path, _get_statici18n_js_url language resources = inr (Some path))
  ↔ is_Some language.
Proof.
  destruct language as [locale_code |].
  - split; [by eexists |]. intros _.
    rewrite statici18n_candidates.
    destruct (first_bundle_last resources [locale_code; language_of locale_code] "en" Hen)
      as [path Hpath].
    exists path. by rewrite <- Hpath.
  - split; [by intros [? ?] | by intros [? ?]].
Qed.

Lemma statici18n_english_fallback_witness :
  (∃ path, _get_statici18n_js_url (Some "de-at") {[ text_js "en" ]} = inr (Some path))
  ↔ is_Some (Some "de-at").
Proof.
  apply (statici18n_english_fallback (Some "de-at") {[ text_js "en" ]}).
  by apply elem_of_singleton.
Defined.

(** X5: two locales of the same bare language, neither with a bundle of
    its own, get the same answer from [_get_statici18n_js_url]. *)
Theorem statici18n_region_insensitive (locale1 locale2 : string) (resources : gset string)
  (Hlang : language_of locale1 = language_of locale2)
  (H1 : text_js locale1 ∉ resources)
  (H2 : text_js locale2 ∉ resources) :
  _get_statici18n_js_url (Some locale1) resources
  = _get_statici18n_js_url (Some locale2) resources.
Proof.
  rewrite !statici18n_candidates. simpl.
  rewrite (bool_decide_eq_false_2 _ H1), (bool_decide_eq_false_2 _ H2).
  by rewrite Hlang.
Qed.

Lemma statici18n_region_insensitive_witness :
  _get_statici18n_js_url (Some "pt-br") {[ text_js "pt"; text_js "en" ]}
  = _get_statici18n_js_url (Some "pt-pt") {[ text_js "pt"; text_js "en" ]}.
Proof.
  apply (statici18n_region_insensitive "pt-br" "pt-pt" {[ text_js "pt"; text_js "en" ]}).
  - reflexivity.
  - apply (bool_decide_unpack _). by vm_compute.
  - apply (bool_decide_unpack _). by vm_compute.
Defined.


(** ** The editing form *)

Lemma scope_check s :
  scope_eqb s content || scope_eqb s settings = true ↔ author_scope s.
Proof.
  unfold author_scope.
  destruct s; simpl; split; intros H; try done; try (by left); try (by right);
    by destruct H.
Qed.

Lemma editable_fields_loop_app {Info} (env : Environment Info) self class_fields
  pre rest fields :
  editable_fields_loop env self class_fields (pre ++ rest) fields
  = match editable_fields_loop env self class_fields pre fields with
    | inr fields' => editable_fields_loop env self class_fields rest fields'
    | inl e => inl e
    end.
Proof.
  revert fields. induction pre as [| n pre IH]; intros fields; simpl; [done |].
  destruct (class_fields !! n) as [f |]; [| done].
  destruct (scope_eqb (scope f) content || scope_eqb (scope f) settings); [| done].
  destruct (_make_field_info env self n f) as [e | [info |]]; [done | apply IH | apply IH].
Qed.

Lemma editable_fields_loop_ok {Info} (env : Environment Info) self class_fields
  names fields result :
  editable_fields_loop env self class_fields names fields = inr result →
  Forall (fun n => ∃ f, class_fields !! n = Some f ∧ author_scope (scope f)) names
  ∧ ∃ more, result = fields ++ more ∧ length more ≤ length names.
Proof.
  revert fields. induction names as [| n names IH]; intros fields; simpl.
  - intros [= <-]. split; [constructor |]. exists []. by rewrite app_nil_r.
  - destruct (class_fields !! n) as [f |] eqn:Hf; [| done].
    destruct (scope_eqb (scope f) content || scope_eqb (scope f) settings) eqn:Hs; [| done].
    apply scope_check in Hs.
    destruct (_make_field_info env self n f) as [e | [info |]]; [done | |];
      intros H; destruct (IH _ H) as (Hall & more & -> & Hlen).
    + split; [constructor; [by exists f | done] |].
      exists (info :: more). rewrite <- app_assoc. split; [done | simpl; lia].
    + split; [constructor; [by exists f | done] |].
      exists more. split; [done | lia].
Qed.

Lemma editable_fields_loop_origin {Info} (env : Environment Info) self class_fields
  all names fields :
  (∀ n, n ∈ names → n ∈ all) →
  Forall (made_for env self class_fields all) fields →
  match editable_fields_loop env self class_fields names fields with
  | inl e =>
      (∃ n, n ∈ all ∧ class_fields !! n = None ∧ e = Raised (KeyError n))
      ∨ (∃ n f, n ∈ all ∧ class_fields !! n = Some f ∧ ¬ author_scope (scope f)
                ∧ e = AssertionError)
      ∨ (∃ n f, n ∈ all ∧ class_fields !! n = Some f
                ∧ _make_field_info env self n f = inl e)
  | inr result => Forall (made_for env self class_fields all) result
  end.
Proof.
  revert fields. induction names as [| n names IH]; intros fields Hsub Hfields; simpl;
    [done |].
  assert (n ∈ all) as Hn by (apply Hsub; left).
  assert (∀ n', n' ∈ names → n' ∈ all) as Hsub' by (intros n' ?; apply Hsub; by right).
  destruct (class_fields !! n) as [f |] eqn:Hf.
  - destruct (scope_eqb (scope f) content || scope_eqb (scope f) settings) eqn:Hs.
    + destruct (_make_field_info env self n f) as [e | [info |]] eqn:Hmake.
      * right. right. by exists n, f.
      * apply IH; [done |]. apply Forall_app. split; [done |].
        constructor; [| constructor]. by exists n, f.
      * by apply IH.
    + right. left. exists n, f. repeat split; try done.
      intros Hscope. apply scope_check in Hscope. congruence.
  - left. by exists n.
Qed.

Lemma declared_editable n :
  n ∈ editable_fields → ∃ f, declared_fields !! n = Some f ∧ author_scope (scope f).
Proof.
  unfold editable_fields. rewrite !elem_of_cons, elem_of_nil.
  intros [-> | [-> | [-> | []]]]; eexists; (split; [reflexivity |]); simpl.
  - by right.
  - by right.
  - by left.
Qed.

(** X6: when [get_editable_fields] returns, every name of
    [editable_fields] is a declared field of scope content or settings, and
    the form has at most one entry for each name. *)
Theorem get_editable_fields_scopes {Info} (env : Environment Info) self
  (class_fields : gmap string Field) names fields
  (Hok : get_editable_fields env self class_fields names = inr fields) :
  Forall (fun n => ∃ f, class_fields !! n = Some f ∧ author_scope (scope f)) names
  ∧ length fields ≤ length names.
Proof.
  apply editable_fields_loop_ok in Hok as (Hall & more & -> & Hlen). by split.
Qed.

Lemma get_editable_fields_scopes_witness :
  Forall (fun n => ∃ f, declared_fields !! n = Some f ∧ author_scope (scope f))
    editable_fields
  ∧ length ["display_name"; "editor"; "allow_javascript"] ≤ length editable_fields.
Proof.
  apply (get_editable_fields_scopes demo_env new_block declared_fields editable_fields).
  reflexivity.
Defined.

(** X7: after names that pass, a name that is not declared makes
    [get_editable_fields] raise its [KeyError], and a field of another
    scope than content and settings makes it raise [AssertionError],
    whatever names follow. *)
Theorem get_editable_fields_rejects {Info} (env : Environment Info) self
  (class_fields : gmap string Field) pre name post fields
  (Hpre : get_editable_fields env self class_fields pre = inr fields) :
  (class_fields !! name = None →
   get_editable_fields env self class_fields (pre ++ name :: post)
   = inl (Raised (KeyError name)))
  ∧ (∀ f, class_fields !! name = Some f → ¬ author_scope (scope f) →
     get_editable_fields env self class_fields (pre ++ name :: post)
     = inl AssertionError).
Proof.
  unfold get_editable_fields in *. rewrite editable_fields_loop_app, Hpre. simpl.
  split.
  - by intros ->.
  - intros f -> Hscope.
    destruct (scope_eqb (scope f) content || scope_eqb (scope f) settings) eqn:Hs;
      [| done].
    by apply scope_check in Hs.
Qed.

Lemma get_editable_fields_rejects_witness :
  get_editable_fields demo_env new_block
    (<["score" := {| field_type := StringField; scope := user_state |}]> declared_fields)
    (["display_name"] ++ "score" :: ["editor"])
  = inl AssertionError.
Proof.
  refine (proj2 (get_editable_fields_rejects demo_env new_block
                   (<["score" := {| field_type := StringField; scope := user_state |}]>
                      declared_fields)
                   ["display_name"] "score" ["editor"] ["display_name"] _) _ _ _).
  - reflexivity.
  - reflexivity.
  - intros [H | H]; discriminate H.
Defined.

Lemma editable_fields_declared_error {Info} (env : Environment Info) self e :
  get_editable_fields env self declared_fields editable_fields = inl e →
  ∃ n f, n ∈ editable_fields ∧ declared_fields !! n = Some f
         ∧ _make_field_info env self n f = inl e.
Proof.
  pose proof (editable_fields_loop_origin env self declared_fields editable_fields
                editable_fields [] (fun _ H => H) (Forall_nil_2 _)) as H.
  unfold get_editable_fields. intros He. rewrite He in H.
  destruct H as [(n & Hn & Hnone & _) | [(n & f & Hn & Hf & Hscope & _) | H]].
  - destruct (declared_editable n Hn) as (f & Hf & _). congruence.
  - destruct (declared_editable n Hn) as (f' & Hf' & Hscope'). congruence.
  - exact H.
Qed.

(** X8: on the fields and the [editable_fields] of this class,
    [get_editable_fields] raises only what [_make_field_info] raises for
    one of the three editable fields, and each entry it returns was made
    by [_make_field_info] for one of them: the body [data] is never part
    of the form. *)
Theorem get_editable_fields_declared {Info} (env : Environment Info) self :
  match get_editable_fields env self declared_fields editable_fields with
  | inl e =>
      ∃ n f, n ∈ editable_fields ∧ declared_fields !! n = Some f
             ∧ _make_field_info env self n f = inl e
  | inr fields => Forall (made_for env self declared_fields editable_fields) fields
  end.
Proof.
  destruct (get_editable_fields env self declared_fields editable_fields)
    as [e | fields] eqn:Hresult.
  - by apply editable_fields_declared_error.
  - pose proof (editable_fields_loop_origin env self declared_fields editable_fields
                  editable_fields [] (fun _ H => H) (Forall_nil_2 _)) as H.
    unfold get_editable_fields in Hresult. by rewrite Hresult in H.
Qed.


(** ** Reading packaged files *)

Lemma resource_string_inr files path text :
  resource_string files path = inr text ↔ files !! path = Some (Utf8 text).
Proof.
  unfold resource_string. destruct (files !! path) as [[t |] |]; split; congruence.
Qed.

Lemma resource_string_inl files path e :
  resource_string files path = inl e →
  (files !! path = None ∧ e = IOError path)
  ∨ (files !! path = Some NotUtf8 ∧ e = UnicodeDecodeError path).
Proof.
  unfold resource_string. destruct (files !! path) as [[t |] |]; intros [=]; subst; auto.
Qed.

Lemma read_all_ok files : snd (read_all files) = None ↔ Forall readable files.
Proof.
  induction files as [| [pkg path] files IH]; simpl; [by split |].
  destruct (resource_string pkg path) as [e | text] eqn:Hread; simpl.
  - split; [done |]. intros Hall. apply Forall_cons in Hall as [[text Htext] _].
    simpl in Htext. apply resource_string_inr in Htext. congruence.
  - rewrite IH, Forall_cons. apply resource_string_inr in Hread.
    split; [| by intros [_ ?]]. intros ?. split; [by exists text | done].
Qed.

Lemma read_all_texts files :
  snd (read_all files) = None →
  Forall2 (fun file text => fst file !! snd file = Some (Utf8 text))
    files (fst (read_all files)).
Proof.
  induction files as [| [pkg path] files IH]; simpl; [constructor |].
  destruct (resource_string pkg path) as [e | text] eqn:Hread; simpl; [done |].
  intros H. constructor; [| by apply IH]. by apply resource_string_inr.
Qed.

Lemma read_all_error files e :
  snd (read_all files) = Some e →
  ∃ pre file post,
    files = pre ++ file :: post
    ∧ Forall2 (fun file text => fst file !! snd file = Some (Utf8 text))
        pre (fst (read_all files))
    ∧ resource_string (fst file) (snd file) = inl e.
Proof.
  induction files as [| [pkg path] files IH]; simpl; [done |].
  destruct (resource_string pkg path) as [e' | text] eqn:Hread; simpl.
  - intros [= ->]. exists [], (pkg, path), files. repeat split; [constructor | done].
  - intros H. destruct (IH H) as (pre & file & post & Hfiles & Hpre & Hfile).
    exists ((pkg, path) :: pre), file, post. rewrite Hfiles at 1.
    repeat split; [| done].
    constructor; [| done]. by apply resource_string_inr.
Qed.

Lemma outcome_inr failure : outcome failure = inr tt ↔ failure = None.
Proof. destruct failure; simpl; split; congruence. Qed.

Lemma outcome_inl failure e : outcome failure = inl e ↔ failure = Some e.
Proof. destruct failure; simpl; split; congruence. Qed.

(** ** The helpers of the Studio view *)

Lemma add_stylesheets_read {Info} (env : Environment Info) self frag :
  add_stylesheets env self frag
  = (outcome (snd (read_all (stylesheet_files env self))),
     frag ++ map AddCss (fst (read_all (stylesheet_files env self)))).
Proof.
  unfold add_stylesheets, stylesheet_files, raw_mode, fbind, lift, call, fret. simpl.
  destruct (resource_string (package env) html_css) as [e | css]; simpl;
    [by rewrite app_nil_r |].
  destruct (String.eqb (editor self) "raw"); simpl; [| done].
  destruct (resource_string (package env) codemirror_css) as [e | cm]; simpl;
    by rewrite <- ?app_assoc.
Qed.

Lemma add_scripts_read {Info} (env : Environment Info) self frag :
  add_scripts env self frag
  = (outcome (snd (read_all (script_files env self))),
     frag ++ map AddJavascript (fst (read_all (script_files env self)))).
Proof.
  unfold add_scripts, script_files, raw_mode, fbind, lift, call, fret. simpl.
  destruct (resource_string (package env) tinymce_js) as [e | js1]; simpl;
    [by rewrite app_nil_r |].
  destruct (resource_string (package env) theme_js) as [e | js2]; simpl; [done |].
  destruct (resource_string (package env) html_xblock_js) as [e | js3]; simpl;
    [by rewrite <- ?app_assoc |].
  destruct (resource_string (utils_package env) studio_edit_js) as [e | js4]; simpl;
    [by rewrite <- ?app_assoc |].
  destruct (String.eqb (editor self) "raw"); simpl; [| by rewrite <- ?app_assoc].
  destruct (resource_string (package env) _) as [e | js5]; simpl;
    [by rewrite <- ?app_assoc |].
  destruct (resource_string (package env) _) as [e | js6]; simpl;
    by rewrite <- ?app_assoc.
Qed.

(** X9: [add_stylesheets] returns exactly when [html.css] and, with the
    raw editor, [codemirror.css] can be read; it then appends their texts
    as style sheets, in this order, to what the fragment held. *)
Theorem add_stylesheets_succeeds {Info} (env : Environment Info) self frag :
  (fst (add_stylesheets env self frag) = inr tt
   ↔ Forall readable (stylesheet_files env self))
  ∧ (fst (add_stylesheets env self frag) = inr tt →
     ∃ texts,
       snd (add_stylesheets env self frag) = frag ++ map AddCss texts
       ∧ Forall2 (fun file text => fst file !! snd file = Some (Utf8 text))
           (stylesheet_files env self) texts).
Proof.
  rewrite add_stylesheets_read. cbn [fst snd]. rewrite outcome_inr, read_all_ok.
  split; [done |]. intros Hall. eexists. split; [done |].
  by apply read_all_texts, read_all_ok.
Qed.

(** X10: when [add_stylesheets] raises, it is for the first of its files
    that cannot be read: [IOError] if the file is missing,
    [UnicodeDecodeError] if it is no UTF-8 text; the texts of the files
    before it, each read from its file, have been appended to the fragment
    as style sheets, in order, and nothing else. *)
Theorem add_stylesheets_fails {Info} (env : Environment Info) self frag e
  (Hfail : fst (add_stylesheets env self frag) = inl e) :
  ∃ pre file post texts,
    stylesheet_files env self = pre ++ file :: post
    ∧ Forall2 (fun file text => fst file !! snd file = Some (Utf8 text)) pre texts
    ∧ (fst file !! snd file = None ∧ e = IOError (snd file)
       ∨ fst file !! snd file = Some NotUtf8 ∧ e = UnicodeDecodeError (snd file))
    ∧ snd (add_stylesheets env self frag) = frag ++ map AddCss texts.
Proof.
  rewrite add_stylesheets_read in *. cbn [fst snd] in *. apply outcome_inl in Hfail.
  apply read_all_error in Hfail as (pre & file & post & ? & ? & Hfile).
  apply resource_string_inl in Hfile.
  by eexists pre, file, post, _.
Qed.

(** X11: [add_scripts] returns exactly when the three editor scripts of
    the package, [studio_edit.js] of the utilities package and, with the
    raw editor, the two CodeMirror scripts can be read; it then appends
    their texts as scripts, in this order, to what the fragment held. *)
Theorem add_scripts_succeeds {Info} (env : Environment Info) self frag :
  (fst (add_scripts env self frag) = inr tt
   ↔ Forall readable (script_files env self))
  ∧ (fst (add_scripts env self frag) = inr tt →
     ∃ texts,
       snd (add_scripts env self frag) = frag ++ map AddJavascript texts
       ∧ Forall2 (fun file text => fst file !! snd file = Some (Utf8 text))
           (script_files env self) texts).
Proof.
  rewrite add_scripts_read. cbn [fst snd]. rewrite outcome_inr, read_all_ok.
  split; [done |]. intros Hall. eexists. split; [done |].
  by apply read_all_texts, read_all_ok.
Qed.

(** X12: when [add_scripts] raises, it is for the first of its files that
    cannot be read: [IOError] if the file is missing, [UnicodeDecodeError]
    if it is no UTF-8 text; the texts of the files before it, each read
    from its file, have been appended to the fragment as scripts, in
    order, and nothing else. *)
Theorem add_scripts_fails {Info} (env : Environment Info) self frag e
  (Hfail : fst (add_scripts env self frag) = inl e) :
  ∃ pre file post texts,
    script_files env self = pre ++ file :: post
    ∧ Forall2 (fun file text => fst file !! snd file = Some (Utf8 text)) pre texts
    ∧ (fst file !! snd file = None ∧ e = IOError (snd file)
       ∨ fst file !! snd file = Some NotUtf8 ∧ e = UnicodeDecodeError (snd file))
    ∧ snd (add_scripts env self frag) = frag ++ map AddJavascript texts.
Proof.
  rewrite add_scripts_read in *. cbn [fst snd] in *. apply outcome_inl in Hfail.
  apply read_all_error in Hfail as (pre & file & post & ? & ? & Hfile).
  apply resource_string_inl in Hfile.
  by eexists pre, file, post, _.
Qed.

(** ** The student view *)

(** X13: [student_view] returns exactly when the LMS template renders and
    [prism.css] and [prism.js] can be read; its fragment is then the
    rendered page, the Prism style sheet and the Prism script, and nothing
    else. *)
Theorem student_view_fragment {Info} (env : Environment Info) self frag :
  run_view (student_view env self) = inr frag
  ↔ ∃ page css js,
      render_lms env self = inr page
      ∧ package env !! prism_css = Some (Utf8 css)
      ∧ package env !! prism_js = Some (Utf8 js)
      ∧ frag = [SetContent page; AddCss css; AddJavascript js].
Proof.
  unfold run_view, student_view, fbind, lift, call, fret. simpl.
  destruct (render_lms env self) as [e | page]; simpl.
  { split; [done | by intros (? & ? & ? & ? & _)]. }
  destruct (resource_string (package env) prism_css) as [e | css] eqn:Hcss; simpl.
  { split; [done |]. intros (? & ? & ? & _ & Hc & _).
    apply resource_string_inr in Hc. congruence. }
  destruct (resource_string (package env) prism_js) as [e | js] eqn:Hjs; simpl.
  { split; [done |]. intros (? & ? & ? & _ & _ & Hj & _).
    apply resource_string_inr in Hj. congruence. }
  apply resource_string_inr in Hcss, Hjs. split.
  - intros [= <-]. by exists page, css, js.
  - intros (? & ? & ? & ? & ? & ? & ->). congruence.
Qed.

(** ** The Studio view *)

Lemma statici18n_js_url_bundle {Info} (env : Environment Info) :
  statici18n_js_url env = inr (translation_bundle env).
Proof.
  unfold statici18n_js_url, translation_bundle.
  destruct (get_language env) as [locale_code |]; [| done].
  by rewrite statici18n_candidates.
Qed.

Lemma translation_bundle_truthy {Info} (env : Environment Info) path :
  translation_bundle env = Some path → truthy (Some path) = true.
Proof.
  unfold translation_bundle. destruct (get_language env) as [locale_code |]; [| done].
  intros H. apply first_bundle_Some in H as (_ & code & _ & ->). reflexivity.
Qed.

Lemma translation_step {Info} (env : Environment Info) self frag :
  (if truthy (translation_bundle env)
   then call (AddJavascriptUrl
                (local_resource_url env self
                   (default EmptyString (translation_bundle env))))
   else fret tt) frag
  = (inr tt, frag ++ map AddJavascriptUrl (translation_urls env self)).
Proof.
  unfold translation_urls.
  destruct (translation_bundle env) as [path |] eqn:Hbundle.
  - by rewrite (translation_bundle_truthy env path Hbundle).
  - simpl. unfold fret. by rewrite app_nil_r.
Qed.

Lemma call_run c frag : call c frag = (inr tt, frag ++ [c]).
Proof. reflexivity. Qed.

Lemma studio_view_run {Info} (env : Environment Info) self frag :
  studio_view env self frag
  = match get_editable_fields env self declared_fields editable_fields with
    | inl e => (inl e, frag)
    | inr settings_fields =>
        match render_settings env settings_fields with
        | inl e => (inl e, frag)
        | inr settings_page =>
            match render_studio env self settings_page with
            | inl e => (inl e, frag)
            | inr page =>
                let css := fst (read_all (stylesheet_files env self)) in
                let js := fst (read_all (script_files env self)) in
                match snd (read_all (stylesheet_files env self)) with
                | Some e => (inl e, frag ++ SetContent page :: map AddCss css)
                | None =>
                    match snd (read_all (script_files env self)) with
                    | Some e =>
                        (inl e,
                         frag ++ SetContent page :: map AddCss css
                           ++ map AddJavascriptUrl (translation_urls env self)
                           ++ map AddJavascript js)
                    | None =>
                        (inr tt,
                         frag ++ SetContent page :: map AddCss css
                           ++ map AddJavascriptUrl (translation_urls env self)
                           ++ map AddJavascript js ++ [initialize_editor env self])
                    end
                end
            end
        end
    end.
Proof.
  unfold studio_view, fbind, lift.
  destruct (get_editable_fields env self declared_fields editable_fields)
    as [e | settings_fields]; [done |].
  destruct (render_settings env settings_fields) as [e | settings_page]; [done |].
  destruct (render_studio env self settings_page) as [e | page]; [done |].
  rewrite call_run, add_stylesheets_read, statici18n_js_url_bundle.
  destruct (snd (read_all (stylesheet_files env self))) as [e |]; cbn [outcome].
  { by rewrite <- app_assoc. }
  rewrite translation_step, add_scripts_read.
  destruct (snd (read_all (script_files env self))) as [e |]; cbn [outcome].
  { by rewrite <- !app_assoc. }
  rewrite call_run. unfold initialize_editor. by rewrite <- !app_assoc.
Qed.

(** X14: a fragment returned by [studio_view] is, in this order: the
    Studio template rendered for the block with the settings form, itself
    rendered from the fields of [get_editable_fields]; the style sheets,
    each the text of its file; the URL of the translation bundle if one
    is found; the scripts, each the text of its file; and the call of
    [HTML5XBlock] with the editor mode, the skin URL and the plugins. *)
Theorem studio_view_shape {Info} (env : Environment Info) self frag
  (Hok : run_view (studio_view env self) = inr frag) :
  ∃ settings_fields settings_page page css js,
    get_editable_fields env self declared_fields editable_fields = inr settings_fields
    ∧ render_settings env settings_fields = inr settings_page
    ∧ render_studio env self settings_page = inr page
    ∧ frag = SetContent page :: map AddCss css
               ++ map AddJavascriptUrl (translation_urls env self)
               ++ map AddJavascript js ++ [initialize_editor env self]
    ∧ Forall2 (fun file text => fst file !! snd file = Some (Utf8 text))
        (stylesheet_files env self) css
    ∧ Forall2 (fun file text => fst file !! snd file = Some (Utf8 text))
        (script_files env self) js.
Proof.
  unfold run_view in Hok. rewrite studio_view_run in Hok.
  destruct (get_editable_fields env self declared_fields editable_fields)
    as [e | settings_fields]; [done |].
  destruct (render_settings env settings_fields) as [e | settings_page] eqn:Hsettings;
    [done |].
  destruct (render_studio env self settings_page) as [e | page] eqn:Hpage; [done |].
  cbn zeta in Hok.
  destruct (snd (read_all (stylesheet_files env self))) as [e |] eqn:Hcss; [done |].
  destruct (snd (read_all (script_files env self))) as [e |] eqn:Hjs; [done |].
  injection Hok as <-.
  exists settings_fields, settings_page, page,
    (fst (read_all (stylesheet_files env self))),
    (fst (read_all (script_files env self))).
  repeat split; try done; by apply read_all_texts.
Qed.

Lemma studio_view_shape_witness :
  ∃ settings_fields settings_page page css js,
    get_editable_fields demo_env raw_block declared_fields editable_fields
    = inr settings_fields
    ∧ render_settings demo_env settings_fields = inr settings_page
    ∧ render_studio demo_env raw_block settings_page = inr page
    ∧ snd (studio_view demo_env raw_block [])
      = SetContent page :: map AddCss css
          ++ map AddJavascriptUrl (translation_urls demo_env raw_block)
          ++ map AddJavascript js ++ [initialize_editor demo_env raw_block]
    ∧ Forall2 (fun file text => fst file !! snd file = Some (Utf8 text))
        (stylesheet_files demo_env raw_block) css
    ∧ Forall2 (fun file text => fst file !! snd file = Some (Utf8 text))
        (script_files demo_env raw_block) js.
Proof.
  apply (studio_view_shape demo_env raw_block). vm_compute. reflexivity.
Defined.

(** X15: [studio_view] returns exactly when the form is built, both
    templates render and every style sheet and script of the editor mode
    can be read; the language and the translation bundles have no part in
    it. *)
Theorem studio_view_succeeds {Info} (env : Environment Info) self :
  (∃ frag, run_view (studio_view env self) = inr frag)
  ↔ (∃ settings_fields settings_page page,
       get_editable_fields env self declared_fields editable_fields = inr settings_fields
       ∧ render_settings env settings_fields = inr settings_page
       ∧ render_studio env self settings_page = inr page)
    ∧ Forall readable (stylesheet_files env self ++ script_files env self).
Proof.
  unfold run_view. rewrite studio_view_run, Forall_app, <- !read_all_ok.
  destruct (get_editable_fields env self declared_fields editable_fields)
    as [e | settings_fields].
  { split; [by intros [? ?] | by intros [(? & ? & ? & ? & _) _]]. }
  destruct (render_settings env settings_fields) as [e | settings_page] eqn:Hsettings.
  { split; [by intros [? ?] |]. intros [(? & ? & ? & ? & ? & _) _]. congruence. }
  destruct (render_studio env self settings_page) as [e | page] eqn:Hpage.
  { split; [by intros [? ?] |]. intros [(? & ? & ? & ? & ? & ?) _]. congruence. }
  cbn zeta.
  destruct (snd (read_all (stylesheet_files env self))) as [e |].
  { split; [by intros [? ?] | by intros [_ [? _]]]. }
  destruct (snd (read_all (script_files env self))) as [e |].
  { split; [by intros [? ?] | by intros [_ [_ ?]]]. }
  split; [| by eexists]. intros _. split; [| done].
  by exists settings_fields, settings_page, page.
Qed.

(** X16: what [studio_view] raises comes from [_make_field_info] on an
    editable field, from one of the two template renderers, or is the
    [IOError] or [UnicodeDecodeError] of one of its style sheets and
    scripts; looking for the translation bundle raises nothing. *)
Theorem studio_view_errors {Info} (env : Environment Info) self e
  (Hfail : run_view (studio_view env self) = inl e) :
  (∃ n f, n ∈ editable_fields ∧ declared_fields !! n = Some f
          ∧ _make_field_info env self n f = inl e)
  ∨ (∃ settings_fields, render_settings env settings_fields = inl e)
  ∨ (∃ settings_page, render_studio env self settings_page = inl e)
  ∨ (∃ file, file ∈ stylesheet_files env self ++ script_files env self
             ∧ (fst file !! snd file = None ∧ e = IOError (snd file)
                ∨ fst file !! snd file = Some NotUtf8
                  ∧ e = UnicodeDecodeError (snd file))).
Proof.
  unfold run_view in Hfail. rewrite studio_view_run in Hfail.
  destruct (get_editable_fields env self declared_fields editable_fields)
    as [e' | settings_fields] eqn:Hfields.
  { left. injection Hfail as <-. by apply editable_fields_declared_error. }
  destruct (render_settings env settings_fields) as [e' | settings_page] eqn:Hsettings.
  { right. left. exists settings_fields. congruence. }
  destruct (render_studio env self settings_page) as [e' | page] eqn:Hpage.
  { right. right. left. exists settings_page. congruence. }
  cbn zeta in Hfail. right. right. right.
  destruct (snd (read_all (stylesheet_files env self))) as [e' |] eqn:Hcss.
  { injection Hfail as ->.
    apply read_all_error in Hcss as (pre & file & post & Hfiles & _ & Hfile).
    apply resource_string_inl in Hfile.
    exists file. split; [| done]. rewrite Hfiles, !elem_of_app, elem_of_cons. auto. }
  destruct (snd (read_all (script_files env self))) as [e' |] eqn:Hjs; [| done].
  injection Hfail as ->.
  apply read_all_error in Hjs as (pre & file & post & Hfiles & _ & Hfile).
  apply resource_string_inl in Hfile.
  exists file. split; [| done]. rewrite Hfiles, !elem_of_app, elem_of_cons. auto.
Qed.

Lemma studio_view_errors_witness :
  (∃ n f, n ∈ editable_fields ∧ declared_fields !! n = Some f
          ∧ _make_field_info (with_package ∅ demo_env) new_block n f
            = inl (IOError html_css))
  ∨ (∃ settings_fields,
       render_settings (with_package ∅ demo_env) settings_fields = inl (IOError html_css))
  ∨ (∃ settings_page,
       render_studio (with_package ∅ demo_env) new_block settings_page
       = inl (IOError html_css))
  ∨ (∃ file, file ∈ stylesheet_files (with_package ∅ demo_env) new_block
                    ++ script_files (with_package ∅ demo_env) new_block
             ∧ (fst file !! snd file = None ∧ IOError html_css = IOError (snd file)
                ∨ fst file !! snd file = Some NotUtf8
                  ∧ IOError html_css = UnicodeDecodeError (snd file))).
Proof.
  apply (studio_view_errors (with_package ∅ demo_env) new_block (IOError html_css)).
  reflexivity.
Defined.

Lemma add_stylesheets_fails_witness :
  ∃ pre file post texts,
    stylesheet_files (with_package {[ html_css := Utf8 "p{}" ]} demo_env) raw_block
    = pre ++ file :: post
    ∧ Forall2 (fun file text => fst file !! snd file = Some (Utf8 text)) pre texts
    ∧ (fst file !! snd file = None ∧ IOError codemirror_css = IOError (snd file)
       ∨ fst file !! snd file = Some NotUtf8
         ∧ IOError codemirror_css = UnicodeDecodeError (snd file))
    ∧ snd (add_stylesheets (with_package {[ html_css := Utf8 "p{}" ]} demo_env)
             raw_block [SetContent "page"])
      = [SetContent "page"] ++ map AddCss texts.
Proof.
  apply (add_stylesheets_fails (with_package {[ html_css := Utf8 "p{}" ]} demo_env)
           raw_block [SetContent "page"] (IOError codemirror_css)).
  reflexivity.
Defined.

Lemma add_scripts_fails_witness :
  ∃ pre file post texts,
    script_files (with_package (<[ theme_js := NotUtf8 ]> demo_package) demo_env) new_block
    = pre ++ file :: post
    ∧ Forall2 (fun file text => fst file !! snd file = Some (Utf8 text)) pre texts
    ∧ (fst file !! snd file = None ∧ UnicodeDecodeError theme_js = IOError (snd file)
       ∨ fst file !! snd file = Some NotUtf8
         ∧ UnicodeDecodeError theme_js = UnicodeDecodeError (snd file))
    ∧ snd (add_scripts (with_package (<[ theme_js := NotUtf8 ]> demo_package) demo_env)
             new_block [])
      = [] ++ map AddJavascript texts.
Proof.
  apply (add_scripts_fails (with_package (<[ theme_js := NotUtf8 ]> demo_package) demo_env)
           new_block [] (UnicodeDecodeError theme_js)).
  vm_compute. reflexivity.
Defined.

(** ** The editor mode and the files of the raw editor *)

Lemma editable_fields_loop_with_package {Info} (env : Environment Info) files self
  class_fields names fields :
  editable_fields_loop (with_package files env) self class_fields names fields
  = editable_fields_loop env self class_fields names fields.
Proof.
  revert fields. induction names as [| n names IH]; intros fields; simpl; [done |].
  destruct (class_fields !! n) as [f |]; [| done].
  destruct (scope_eqb (scope f) content || scope_eqb (scope f) settings); [| done].
  destruct (_make_field_info env self n f) as [e | [info |]]; [done | apply IH | apply IH].
Qed.

Lemma first_bundle_agree (resources1 resources2 : gset string) codes :
  (∀ code, text_js code ∈ resources1 ↔ text_js code ∈ resources2) →
  first_bundle resources1 codes = first_bundle resources2 codes.
Proof.
  intros Hagree. induction codes as [| code codes IH]; simpl; [done |].
  rewrite IH. destruct (decide (text_js code ∈ resources1)) as [Hin | Hnot].
  - rewrite !bool_decide_eq_true_2; [done | by apply Hagree | done].
  - rewrite !bool_decide_eq_false_2; [done | by rewrite <- Hagree | done].
Qed.

(** X17: unless the editor is the raw one, [studio_view] does not depend
    on the files under the CodeMirror directory: with any other files
    there, or none, it does the same. *)
Theorem visual_editor_needs_no_codemirror {Info} (env : Environment Info) self
  (files : gmap string packaged_file) frag
  (Hvisual : editor self ≠ "raw")
  (Hsame : ∀ path, String.prefix code_mirror_dir path = false →
                   files !! path = package env !! path) :
  studio_view (with_package files env) self frag = studio_view env self frag.
Proof.
  assert (raw_mode self = false) as Hmode.
  { unfold raw_mode. by apply String.eqb_neq. }
  assert (∀ path, String.prefix code_mirror_dir path = false →
                  resource_string files path = resource_string (package env) path)
    as Hread.
  { intros path Hpath. unfold resource_string. by rewrite (Hsame path Hpath). }
  rewrite !studio_view_run.
  unfold get_editable_fields. rewrite editable_fields_loop_with_package.
  assert (read_all (stylesheet_files (with_package files env) self)
          = read_all (stylesheet_files env self)) as ->.
  { unfold stylesheet_files. rewrite Hmode. simpl. by rewrite Hread. }
  assert (read_all (script_files (with_package files env) self)
          = read_all (script_files env self)) as ->.
  { unfold script_files. rewrite Hmode. simpl. by rewrite !Hread. }
  assert (translation_urls (with_package files env) self = translation_urls env self)
    as ->.
  { unfold translation_urls, translation_bundle, with_package.
    cbn [get_language package local_resource_url].
    destruct (get_language env) as [locale_code |]; [| done].
    rewrite (first_bundle_agree (dom files) (dom (package env))); [done |].
    intros code. rewrite !elem_of_dom. by rewrite Hsame. }
  reflexivity.
Qed.

Lemma visual_editor_needs_no_codemirror_witness :
  studio_view (with_package (delete codemirror_css demo_package) demo_env) new_block []
  = studio_view demo_env new_block [].
Proof.
  apply (visual_editor_needs_no_codemirror demo_env new_block
           (delete codemirror_css demo_package) []).
  - discriminate.
  - intros path Hpath. apply lookup_delete_ne. intros <-. discriminate Hpath.
Defined.
